(** * NextFinancialDashboard: the data-access, mutation and sign-in layer

    A shallow embedding of [app/lib/data.ts], [app/lib/actions.ts] and
    [auth.ts].  Server functions are state transformers over a [World] that
    holds the three tables, the clock, the page cache and the console; a
    JavaScript [throw] is the [Throw] completion.

    Numbers.  An amount typed into a form is an IEEE binary64 value
    ([float]), exactly as the JavaScript engine computes with it.  Cells
    that hold whole numbers (integer columns, row counts, [LIMIT] and
    [OFFSET]) are [Z]: the driver's decimal text of such a cell and
    JavaScript's reading of it denote the same integer (doubles are exact
    on whole numbers below 2^53), and the quotient of a row count by the
    page size is taken in [Q]. *)

From Stdlib Require Import ZArith QArith Qround Bool List String Ascii.
From Stdlib Require Import Floats DecimalString Permutation Sorted Lia.
Import ListNotations.

Close Scope Q_scope.
Local Open Scope string_scope.
Local Open Scope list_scope.

(* ================================================================== *)
(** * Text *)

(** A string is its characters in order, one [ascii] for each: the
    characters of the model are the 256 code points of Latin-1, for which
    a JavaScript code unit, a code point and a character of the database
    are the same thing. *)
Definition text := list ascii.

Definition chars (s : string) : text := list_ascii_of_string s.

Definition backslash : ascii := "092"%char.

(** The characters [LIKE] does not read literally. *)
Definition like_special (c : ascii) : bool :=
  Ascii.eqb c "%" || Ascii.eqb c "_" || Ascii.eqb c backslash.

(** ** Letter case

    [ILIKE] folds pattern and subject to lower case, character by
    character, and the locale of the database decides which characters
    are letters and what their lower-case forms are.  [%], [_] and the
    backslash are letters in no locale: folding leaves each of them as it
    is and gives none of them for another character. *)
Definition all_chars : text := map ascii_of_nat (seq 0 256).

Definition keeps_like_special (f : ascii -> ascii) : bool :=
  forallb (fun c => if like_special c then Ascii.eqb (f c) c
                    else negb (like_special (f c)))
          all_chars.

Record Locale := {
  lower_char : ascii -> ascii;
  lower_char_keeps : keeps_like_special lower_char = true
}.

Definition lower (l : Locale) (s : text) : text := map (lower_char l) s.

(** The locale [C]: the letters are [A] to [Z]. *)
Definition C_lower_char (c : ascii) : ascii :=
  let n := nat_of_ascii c in
  if (65 <=? n)%nat && (n <=? 90)%nat then ascii_of_nat (n + 32) else c.

Definition C_locale : Locale :=
  {| lower_char := C_lower_char; lower_char_keeps := eq_refl |}.

(** A locale of the Latin-1 character set: the accented capitals, 192 to
    222 with the multiplication sign 215 left out, are letters as well. *)
Definition Latin1_lower_char (c : ascii) : ascii :=
  let n := nat_of_ascii c in
  if ((65 <=? n)%nat && (n <=? 90)%nat)
     || ((192 <=? n)%nat && (n <=? 222)%nat && negb (n =? 215)%nat)
  then ascii_of_nat (n + 32) else c.

Definition Latin1_locale : Locale :=
  {| lower_char := Latin1_lower_char; lower_char_keeps := eq_refl |}.

(** Decimal text of an integer cell ([CAST(... AS TEXT)]). *)
Definition Z_to_text (z : Z) : string := NilZero.string_of_int (Z.to_int z).

(** [String.prototype.split] for a one-character separator. *)
Fixpoint split_chars (sep : ascii) (cur : text) (s : text) : list string :=
  match s with
  | [] => [string_of_list_ascii (rev cur)]
  | c :: s' =>
      if Ascii.eqb c sep
      then string_of_list_ascii (rev cur) :: split_chars sep [] s'
      else split_chars sep (c :: cur) s'
  end.

Definition str_split (sep : ascii) (s : string) : list string :=
  split_chars sep [] (chars s).

(** ** LIKE patterns

    [%] matches any run of characters, [_] any one character, and a
    backslash makes the character after it literal.  A pattern that ends in
    a lone backslash matches nothing here; the patterns the queries build
    always end in [%], so they never do. *)
Fixpoint like (p : text) : text -> bool :=
  match p with
  | [] => fun s => match s with [] => true | _ :: _ => false end
  | c :: p' =>
      if Ascii.eqb c "%" then
        fix any (s : text) : bool :=
          like p' s || match s with [] => false | _ :: s' => any s' end
      else if Ascii.eqb c "_" then
        fun s => match s with [] => false | _ :: s' => like p' s' end
      else if Ascii.eqb c backslash then
        match p' with
        | [] => fun _ => false
        | e :: p'' =>
            fun s =>
              match s with
              | [] => false
              | d :: s' => Ascii.eqb e d && like p'' s'
              end
        end
      else
        fun s =>
          match s with
          | [] => false
          | d :: s' => Ascii.eqb c d && like p' s'
          end
  end.

(** [subject ILIKE pattern] under the locale [l]. *)
Definition ilike (l : Locale) (subject pattern : string) : bool :=
  like (lower l (chars pattern)) (lower l (chars subject)).

Definition plain_query (q : string) : Prop :=
  forallb (fun c => negb (like_special c)) (chars q) = true.

(** ** Substring search, as the specification words it *)

Fixpoint starts_with (q s : text) : bool :=
  match q, s with
  | [], _ => true
  | _ :: _, [] => false
  | c :: q', d :: s' => Ascii.eqb c d && starts_with q' s'
  end.

Fixpoint occurs (q s : text) : bool :=
  starts_with q s || match s with [] => false | _ :: s' => occurs q s' end.

(** [subject] contains [query], letter case ignored: the lower-case form
    of the one occurs in the lower-case form of the other. *)
Definition contains_ci (l : Locale) (subject query : string) : bool :=
  occurs (lower l (chars query)) (lower l (chars subject)).

(* ================================================================== *)
(** * Numbers *)

Definition number := float.

(** The nearest double of an integer: the number the driver hands over
    for an integer cell. *)
Definition number_of_int (z : Z) : number :=
  SF2Prim (binary_normalize prec emax z 0 false).

Definition signed (s : bool) (m : positive) : Z :=
  if s then Z.neg m else Z.pos m.

(** The integer a double denotes, when it denotes one. *)
Definition int_of_number (x : number) : option Z :=
  match Prim2SF x with
  | S754_zero _ => Some 0%Z
  | S754_finite s m e =>
      if (0 <=? e)%Z then Some (signed s m * 2 ^ e)%Z
      else if (Z.pos m mod 2 ^ (- e) =? 0)%Z
           then Some (signed s m / 2 ^ (- e))%Z
           else None
  | _ => None
  end.

(** [Math.round]: the integer nearest to the exact value, ties towards
    positive infinity; nothing for NaN and the infinities. *)
Definition Math_round (x : number) : option Z :=
  match Prim2SF x with
  | S754_zero _ => Some 0%Z
  | S754_finite s m e =>
      if (0 <=? e)%Z then Some (signed s m * 2 ^ e)%Z
      else Some ((2 * signed s m + 2 ^ (- e)) / (2 * 2 ^ (- e)))%Z
  | _ => None
  end.

(** [Math.ceil] of an exact quotient. *)
Definition Math_ceil (q : Q) : Z := Qceiling q.

(** ** Decimal literals

    The part of ECMAScript's [StringToNumber] that reads an optional sign,
    digits and an optional fraction, correctly rounded; the empty string is
    [0] and any other text is [NaN].  It instantiates the platform in the
    worked examples. *)
Definition digit_of (c : ascii) : option Z :=
  let n := nat_of_ascii c in
  if (48 <=? n)%nat && (n <=? 57)%nat then Some (Z.of_nat (n - 48)) else None.

(** Reads digits into a mantissa [m] and a count [k] of fraction digits:
    the value is [m / 10^k]. *)
Fixpoint read_digits (in_fraction : bool) (m k : Z) (seen : bool) (s : text)
  : option (Z * Z) :=
  match s with
  | [] => if seen then Some (m, k) else None
  | c :: s' =>
      if Ascii.eqb c "." then
        if in_fraction then None else read_digits true m k seen s'
      else
        match digit_of c with
        | Some d =>
            read_digits in_fraction (10 * m + d)
              (if in_fraction then k + 1 else k) true s'
        | None => None
        end
  end%Z.

(** [m / 10^k] rounded to the nearest double, ties to even. *)
Definition decimal_to_number (neg : bool) (m k : Z) : number :=
  match m with
  | Z.pos p =>
      let d := (10 ^ k)%Z in
      let '(q, e, l) := SFdiv_core_binary prec emax (Z.pos p) 0 d 0 in
      SF2Prim (binary_round_aux prec emax neg q e l)
  | _ => if neg then (-0)%float else 0%float
  end.

Definition parse_decimal (s : string) : number :=
  match chars s with
  | [] => 0%float
  | c :: rest =>
      let '(neg, body) :=
        if Ascii.eqb c "-" then (true, rest)
        else if Ascii.eqb c "+" then (false, rest)
        else (false, c :: rest) in
      match read_digits false 0 0 false body with
      | Some (m, k) => decimal_to_number neg m k
      | None => nan
      end
  end.

(* ================================================================== *)
(** * JavaScript values, dates and exceptions *)

(** The values that reach the schemas: a form entry is a string, a file
    (an object) or [null]; a credentials field may also be missing. *)
Inductive JsValue :=
| JsUndefined
| JsNull
| JsString (s : string)
| JsNumber (x : number)
| JsObject (class : string).

Definition typeof (v : JsValue) : string :=
  match v with
  | JsUndefined => "undefined"
  | JsNull => "null"
  | JsString _ => "string"
  | JsNumber x => if is_nan x then "nan" else "number"
  | JsObject _ => "object"
  end.

(** A UTC instant, years 0 to 9999. *)
Record Date := {
  year : nat; month : nat; day : nat;
  hours : nat; minutes : nat; seconds : nat; milliseconds : nat
}.

Definition digit (n : nat) : ascii := ascii_of_nat (48 + n mod 10).

Definition pad2 (n : nat) : text := [digit (n / 10); digit n].
Definition pad3 (n : nat) : text := digit (n / 100) :: pad2 n.
Definition pad4 (n : nat) : text := digit (n / 1000) :: pad3 n.

(** The date part of the ISO form, [YYYY-MM-DD]. *)
Definition iso_date (d : Date) : text :=
  pad4 (year d) ++ "-"%char :: pad2 (month d) ++ "-"%char :: pad2 (day d).

Definition iso_time (d : Date) : text :=
  pad2 (hours d) ++ ":"%char :: pad2 (minutes d) ++ ":"%char
    :: pad2 (seconds d) ++ "."%char :: pad3 (milliseconds d) ++ ["Z"%char].

(** [Date.prototype.toISOString]: [YYYY-MM-DDTHH:mm:ss.sssZ]. *)
Definition toISOString (d : Date) : string :=
  string_of_list_ascii (iso_date d ++ "T"%char :: iso_time d).

(** What a [throw] carries.  [AuthError] is the session library's error
    class with its [type]; [NEXT_REDIRECT] is the error [redirect] throws
    to make the framework navigate. *)
Inductive Exception :=
| Error (message : string)
| TypeError (message : string)
| NeonDbError (message : string)
| AuthError (type : string)
| NEXT_REDIRECT (url : string).

Inductive Completion (A : Type) :=
| Normal (value : A)
| Throw (error : Exception).

Arguments Normal {A} value.
Arguments Throw {A} error.

(* ================================================================== *)
(** * The database *)

Record InvoiceRow := {
  inv_id : string;
  inv_customer_id : string;
  inv_amount : Z;          (* integer cents *)
  inv_status : string;
  inv_date : string        (* a date column, held in its text form *)
}.

Record CustomerRow := {
  cust_id : string;
  cust_name : string;
  cust_email : string;
  cust_image_url : string
}.

Record User := {
  user_id : string;
  user_email : string;
  user_password : string   (* the stored hash *)
}.

(** The statements the three files send, with their parameters as the
    code binds them. *)
Inductive Statement :=
| INSERT_invoice (customer_id : string) (amount : number) (status date : string)
| UPDATE_invoice (customer_id : string) (amount : number) (status id : string)
| DELETE_invoice (id : string)
| SELECT_user (email : string)
| SELECT_invoice (id : string)
| SELECT_count_invoices
| SELECT_count_customers
| SELECT_status_sums
| SELECT_filtered_invoices (pattern : string) (limit offset : Z)
| SELECT_count_filtered (pattern : string).

(** Everything a server function reads or changes.  [refuses] says which
    statements the endpoint fails for a reason of its own (an outage, a
    broken constraint, a value out of range); [uuid_generate_v4] is the
    column default of [invoices.id]. *)
Record World := {
  invoices : list InvoiceRow;
  customers : list CustomerRow;
  users : list User;
  refuses : Statement -> bool;
  uuid_generate_v4 : nat -> string;
  uuid_count : nat;
  clock : Date;
  statements : list Statement;   (* every statement sent, in order *)
  revalidated : list string;     (* paths dropped from the page cache *)
  console : list string;
  locale : Locale                (* of the database, for [ILIKE] *)
}.

Definition with_invoices (l : list InvoiceRow) (w : World) : World :=
  {| invoices := l; customers := customers w; users := users w;
     refuses := refuses w; uuid_generate_v4 := uuid_generate_v4 w;
     uuid_count := uuid_count w; clock := clock w;
     statements := statements w; revalidated := revalidated w;
     console := console w; locale := locale w |}.

Definition with_uuid_count (n : nat) (w : World) : World :=
  {| invoices := invoices w; customers := customers w; users := users w;
     refuses := refuses w; uuid_generate_v4 := uuid_generate_v4 w;
     uuid_count := n; clock := clock w;
     statements := statements w; revalidated := revalidated w;
     console := console w; locale := locale w |}.

Definition with_statements (l : list Statement) (w : World) : World :=
  {| invoices := invoices w; customers := customers w; users := users w;
     refuses := refuses w; uuid_generate_v4 := uuid_generate_v4 w;
     uuid_count := uuid_count w; clock := clock w;
     statements := l; revalidated := revalidated w;
     console := console w; locale := locale w |}.

Definition with_revalidated (l : list string) (w : World) : World :=
  {| invoices := invoices w; customers := customers w; users := users w;
     refuses := refuses w; uuid_generate_v4 := uuid_generate_v4 w;
     uuid_count := uuid_count w; clock := clock w;
     statements := statements w; revalidated := l;
     console := console w; locale := locale w |}.

Definition with_console (l : list string) (w : World) : World :=
  {| invoices := invoices w; customers := customers w; users := users w;
     refuses := refuses w; uuid_generate_v4 := uuid_generate_v4 w;
     uuid_count := uuid_count w; clock := clock w;
     statements := statements w; revalidated := revalidated w;
     console := l; locale := locale w |}.

(* ================================================================== *)
(** * Server functions as state transformers *)

Definition M (A : Type) : Type := World -> Completion A * World.

Definition ret {A} (a : A) : M A := fun w => (Normal a, w).

Definition throw {A} (e : Exception) : M A := fun w => (Throw e, w).

Definition bind {A B} (m : M A) (k : A -> M B) : M B :=
  fun w =>
    match m w with
    | (Normal a, w') => k a w'
    | (Throw e, w') => (Throw e, w')
    end.

(** [try { body } catch (error) { handler }]. *)
Definition try_catch {A} (body : M A) (handler : Exception -> M A) : M A :=
  fun w =>
    match body w with
    | (Normal a, w') => (Normal a, w')
    | (Throw e, w') => handler e w'
    end.

Declare Scope js_scope.
Delimit Scope js_scope with js.
Notation "x <- m ;; k" := (bind m (fun x => k))
  (at level 61, m at next level, right associativity) : js_scope.
Notation "m ;; k" := (bind m (fun _ => k))
  (at level 61, right associativity) : js_scope.
Local Open Scope js_scope.

Definition console_log (line : string) : M unit :=
  fun w => (Normal tt, with_console (console w ++ [line]) w).

Definition console_error (line : string) : M unit := console_log line.

Definition Date_now : M Date := fun w => (Normal (clock w), w).

(** [revalidatePath] of [next/cache]. *)
Definition revalidatePath (path : string) : M unit :=
  fun w => (Normal tt, with_revalidated (revalidated w ++ [path]) w).

(** [redirect] of [next/navigation]: it never returns. *)
Definition redirect {A} (url : string) : M A := throw (NEXT_REDIRECT url).

(** Reading a property of [rows[0]]: a [TypeError] when there is no row. *)
Definition property {A B} (row : option A) (field : A -> B) : M B :=
  match row with
  | Some r => ret (field r)
  | None => throw (TypeError "Cannot read properties of undefined")
  end.

(** [value ?? fallback]. *)
Definition nullish {A} (value : option A) (fallback : A) : A :=
  match value with
  | Some v => v
  | None => fallback
  end.

(** [Promise.all] of three queries already started: all three run, and the
    first rejection is the result. *)
Definition Promise_all3 {A B C} (p1 : M A) (p2 : M B) (p3 : M C)
  : M (A * B * C) :=
  fun w =>
    let '(r1, w1) := p1 w in
    let '(r2, w2) := p2 w1 in
    let '(r3, w3) := p3 w2 in
    match r1, r2, r3 with
    | Normal a, Normal b, Normal c => (Normal (a, b, c), w3)
    | Throw e, _, _ => (Throw e, w3)
    | _, Throw e, _ => (Throw e, w3)
    | _, _, Throw e => (Throw e, w3)
    end.

(* ================================================================== *)
(** * Statements *)

(** Sending a statement records it; the endpoint may refuse it; otherwise
    [run] performs it, and gives nothing when a bound value does not fit
    the statement (the driver then rejects, as for a refusal). *)
Definition sql {A} (stmt : Statement) (run : World -> option (A * World))
  : M A :=
  fun w =>
    let w1 := with_statements (statements w ++ [stmt]) w in
    if refuses w stmt
    then (Throw (NeonDbError "the endpoint failed the statement"), w1)
    else
      match run w1 with
      | Some (a, w2) => (Normal a, w2)
      | None => (Throw (NeonDbError "invalid input value"), w1)
      end.

(** Modelled from the spec: the schema of the tables is not among the
    files embedded here; the data model gives [invoices.amount] as integer
    cents.  A number bound to that column is stored when it is a whole
    number, and the statement fails when it is not. *)
Definition bind_amount (amount : number) : option Z := int_of_number amount.

(** [INSERT INTO invoices (customer_id, amount, status, date)
     VALUES ($1, $2, $3, $4)] *)
Definition sql_insert_invoice (customer_id : string) (amount : number)
    (status date : string) : M (list unit) :=
  sql (INSERT_invoice customer_id amount status date)
    (fun w =>
       match bind_amount amount with
       | Some cents =>
           let row := {| inv_id := uuid_generate_v4 w (uuid_count w);
                         inv_customer_id := customer_id;
                         inv_amount := cents;
                         inv_status := status;
                         inv_date := date |} in
           Some ([], with_uuid_count (S (uuid_count w))
                       (with_invoices (invoices w ++ [row]) w))
       | None => None
       end).

Definition set_invoice (customer_id : string) (cents : Z) (status : string)
    (r : InvoiceRow) : InvoiceRow :=
  {| inv_id := inv_id r;
     inv_customer_id := customer_id;
     inv_amount := cents;
     inv_status := status;
     inv_date := inv_date r |}.

(** [UPDATE invoices SET customer_id = $1, amount = $2, status = $3
     WHERE id = $4] *)
Definition sql_update_invoice (customer_id : string) (amount : number)
    (status id : string) : M (list unit) :=
  sql (UPDATE_invoice customer_id amount status id)
    (fun w =>
       match bind_amount amount with
       | Some cents =>
           Some ([], with_invoices
                       (map (fun r => if String.eqb (inv_id r) id
                                      then set_invoice customer_id cents status r
                                      else r)
                            (invoices w)) w)
       | None => None
       end).

(** [DELETE FROM invoices WHERE id = $1] *)
Definition sql_delete_invoice (id : string) : M (list unit) :=
  sql (DELETE_invoice id)
    (fun w =>
       Some ([], with_invoices
                   (filter (fun r => negb (String.eqb (inv_id r) id))
                           (invoices w)) w)).

(** [SELECT * FROM users WHERE email = $1] *)
Definition sql_select_user (email : string) : M (list User) :=
  sql (SELECT_user email)
    (fun w =>
       Some (filter (fun u => String.eqb (user_email u) email) (users w), w)).

Record InvoiceByIdRow := {
  row_id : string;
  row_customer_id : string;
  row_amount : Z;
  row_status : string
}.

(** [SELECT invoices.id, invoices.customer_id, invoices.amount,
     invoices.status FROM invoices WHERE invoices.id = $1] *)
Definition sql_select_invoice (id : string) : M (list InvoiceByIdRow) :=
  sql (SELECT_invoice id)
    (fun w =>
       Some (map (fun r => {| row_id := inv_id r;
                              row_customer_id := inv_customer_id r;
                              row_amount := inv_amount r;
                              row_status := inv_status r |})
                 (filter (fun r => String.eqb (inv_id r) id) (invoices w)),
             w)).

(** A [COUNT] cell and a [SUM] cell; [None] is SQL's [NULL]. *)
Record CountRow := { count : option Z }.
Record StatusSumsRow := { paid : option Z; pending : option Z }.

(** [SELECT COUNT( * ) FROM invoices] *)
Definition sql_count_invoices : M (list CountRow) :=
  sql SELECT_count_invoices
    (fun w => Some ([{| count := Some (Z.of_nat (List.length (invoices w))) |}], w)).

(** [SELECT COUNT( * ) FROM customers] *)
Definition sql_count_customers : M (list CountRow) :=
  sql SELECT_count_customers
    (fun w => Some ([{| count := Some (Z.of_nat (List.length (customers w))) |}], w)).

(** [SUM] over the rows: [NULL] when there is none. *)
Definition SUM {A} (f : A -> Z) (rows : list A) : option Z :=
  match rows with
  | [] => None
  | _ :: _ => Some (fold_right (fun r acc => (f r + acc)%Z) 0%Z rows)
  end.

(** [CASE WHEN status = s THEN amount ELSE 0 END] *)
Definition amount_when (s : string) (r : InvoiceRow) : Z :=
  if String.eqb (inv_status r) s then inv_amount r else 0%Z.

(** [SELECT SUM(CASE WHEN status = 'paid' THEN amount ELSE 0 END) AS paid,
     SUM(CASE WHEN status = 'pending' THEN amount ELSE 0 END) AS pending
     FROM invoices] *)
Definition sql_status_sums : M (list StatusSumsRow) :=
  sql SELECT_status_sums
    (fun w =>
       Some ([{| paid := SUM (amount_when "paid") (invoices w);
                 pending := SUM (amount_when "pending") (invoices w) |}],
             w)).

(** [FROM invoices JOIN customers ON invoices.customer_id = customers.id] *)
Definition invoices_join_customers (w : World)
  : list (InvoiceRow * CustomerRow) :=
  flat_map
    (fun i =>
       map (pair i)
           (filter (fun c => String.eqb (inv_customer_id i) (cust_id c))
                   (customers w)))
    (invoices w).

(** [WHERE customers.name ILIKE p OR customers.email ILIKE p OR
     CAST(invoices.amount AS TEXT) ILIKE p OR
     CAST(invoices.date AS TEXT) ILIKE p OR invoices.status ILIKE p] *)
Definition where_ilike (l : Locale) (p : string)
    (r : InvoiceRow * CustomerRow) : bool :=
  let '(i, c) := r in
  ilike l (cust_name c) p
  || ilike l (cust_email c) p
  || ilike l (Z_to_text (inv_amount i)) p
  || ilike l (inv_date i) p
  || ilike l (inv_status i) p.

(** [ORDER BY invoices.date DESC], by insertion; rows of one date keep
    their order. *)
Definition date_geb (a b : InvoiceRow * CustomerRow) : bool :=
  String.leb (inv_date (fst b)) (inv_date (fst a)).

Fixpoint insert_by_date (x : InvoiceRow * CustomerRow)
    (l : list (InvoiceRow * CustomerRow)) : list (InvoiceRow * CustomerRow) :=
  match l with
  | [] => [x]
  | y :: l' => if date_geb x y then x :: l else y :: insert_by_date x l'
  end.

Definition order_by_date_desc (l : list (InvoiceRow * CustomerRow))
  : list (InvoiceRow * CustomerRow) :=
  fold_right insert_by_date [] l.

Record InvoicesTable := {
  it_id : string;
  it_amount : Z;
  it_date : string;
  it_status : string;
  it_name : string;
  it_email : string;
  it_image_url : string
}.

Definition select_invoices_table (r : InvoiceRow * CustomerRow)
  : InvoicesTable :=
  let '(i, c) := r in
  {| it_id := inv_id i; it_amount := inv_amount i; it_date := inv_date i;
     it_status := inv_status i; it_name := cust_name c;
     it_email := cust_email c; it_image_url := cust_image_url c |}.

(** [SELECT invoices.id, invoices.amount, invoices.date, invoices.status,
     customers.name, customers.email, customers.image_url
     FROM ... WHERE ... ORDER BY invoices.date DESC
     LIMIT $6 OFFSET $7]; a negative [LIMIT] or [OFFSET] is an error. *)
Definition sql_select_filtered_invoices (pattern : string) (limit offset : Z)
  : M (list InvoicesTable) :=
  sql (SELECT_filtered_invoices pattern limit offset)
    (fun w =>
       if ((limit <? 0) || (offset <? 0))%Z then None
       else
         let rows :=
           order_by_date_desc
             (filter (where_ilike (locale w) pattern)
                     (invoices_join_customers w)) in
         Some (map select_invoices_table
                   (firstn (Z.to_nat limit) (skipn (Z.to_nat offset) rows)),
               w)).

(** [SELECT COUNT( * ) FROM ... WHERE ...] *)
Definition sql_count_filtered (pattern : string) : M (list CountRow) :=
  sql (SELECT_count_filtered pattern)
    (fun w =>
       Some ([{| count :=
                   Some (Z.of_nat
                           (List.length
                              (filter (where_ilike (locale w) pattern)
                                      (invoices_join_customers w)))) |}],
             w)).

(* ================================================================== *)
(** * Forms and the imported libraries *)

Inductive FormDataEntryValue :=
| EntryString (s : string)
| EntryFile (name : string).

(** A form is its entries in order. *)
Definition FormData := list (string * FormDataEntryValue).

(** [formData.get(name)]: the first entry of that name, or [null]. *)
Fixpoint FormData_get (formData : FormData) (name : string) : JsValue :=
  match formData with
  | [] => JsNull
  | (k, v) :: rest =>
      if String.eqb k name
      then match v with
           | EntryString s => JsString s
           | EntryFile _ => JsObject "File"
           end
      else FormData_get rest name
  end.

(** What the code imports from outside the repository, left open here:
    [StringToNumber] is ECMAScript's reading of a string as a number,
    [emailRegex_test] the schema library's e-mail check, [bcrypt_compare]
    the salted hash comparison, [signIn] the session library's sign-in. *)
Class Platform := {
  StringToNumber : string -> number;
  emailRegex_test : string -> bool;
  bcrypt_compare : string -> string -> bool;
  signIn : string -> FormData -> M unit
}.

(** Modelled from the spec: [formatCurrency] of [app/lib/utils.ts] is not
    among the files embedded here; the specification gives it as a pure
    function from cents to a currency string, and it is left open. *)
Class Utils := {
  formatCurrency : Z -> string
}.

(* ================================================================== *)
(** * Schema validation (zod) *)

Record ZodIssue := { issue_path : string; issue_message : string }.

Inductive SafeParseReturnType (T : Type) :=
| SafeParseSuccess (data : T)
| SafeParseError (error : list ZodIssue).

Arguments SafeParseSuccess {T} data.
Arguments SafeParseError {T} error.

(** The message of an [invalid_type] issue. *)
Definition invalid_type (invalid_type_error : option string)
    (expected : string) (input : JsValue) : string :=
  match input with
  | JsUndefined => "Required"
  | _ =>
      match invalid_type_error with
      | Some m => m
      | None => ("Expected " ++ expected ++ ", received " ++ typeof input)%string
      end
  end.

(** [z.string({ invalid_type_error })] *)
Definition z_string (invalid_type_error : option string) (input : JsValue)
  : string + list string :=
  match input with
  | JsString s => inl s
  | _ => inr [invalid_type invalid_type_error "string" input]
  end.

(** [z.string().email()] *)
Definition z_string_email `{Platform} (input : JsValue)
  : string + list string :=
  match z_string None input with
  | inl s => if emailRegex_test s then inl s else inr ["Invalid email"]
  | inr e => inr e
  end.

(** [z.string().min(n)] *)
Definition z_string_min (n : nat) (input : JsValue) : string + list string :=
  match z_string None input with
  | inl s =>
      if (String.length s <? n)%nat
      then inr [("String must contain at least "
                   ++ NilZero.string_of_uint (Nat.to_uint n)
                   ++ " character(s)")%string]
      else inl s
  | inr e => inr e
  end.

(** [Number(value)] *)
Definition Number `{Platform} (v : JsValue) : number :=
  match v with
  | JsUndefined => nan
  | JsNull => 0%float
  | JsString s => StringToNumber s
  | JsNumber x => x
  | JsObject _ => nan
  end.

(** [z.coerce.number().gt(bound, { message })]: the input is coerced, a
    [NaN] is not a number, and a number is too small when it is at most
    the bound. *)
Definition z_coerce_number_gt `{Platform} (bound : number) (message : string)
    (input : JsValue) : number + list string :=
  let data := Number input in
  if is_nan data then inr ["Expected number, received nan"]
  else if (data <=? bound)%float then inr [message]
  else inl data.

(** [z.enum(['pending', 'paid'], { invalid_type_error })] *)
Definition z_enum_status (invalid_type_error : option string)
    (input : JsValue) : string + list string :=
  match input with
  | JsString s =>
      if String.eqb s "pending" || String.eqb s "paid" then inl s
      else inr [("Invalid enum value. Expected 'pending' | 'paid', received '"
                   ++ s ++ "'")%string]
  | _ => inr [invalid_type invalid_type_error "'pending' | 'paid'" input]
  end.

Definition issues_at {T} (path : string) (r : T + list string)
  : list ZodIssue :=
  match r with
  | inl _ => []
  | inr messages =>
      map (fun m => {| issue_path := path; issue_message := m |}) messages
  end.

(** The fields of [FormSchema] that are left after [omit({ id, date })]. *)
Record InvoiceFields := {
  customerId : string;
  amount : number;
  status : string
}.

Definition FormSchema_omit_id_date `{Platform}
    (customerId_in amount_in status_in : JsValue)
  : SafeParseReturnType InvoiceFields :=
  let c := z_string (Some "Please select a customer.") customerId_in in
  let a := z_coerce_number_gt 0%float "Please enter an amount greater than $0."
             amount_in in
  let s := z_enum_status (Some "Please select an invoice status.") status_in in
  match c, a, s with
  | inl c', inl a', inl s' =>
      SafeParseSuccess {| customerId := c'; amount := a'; status := s' |}
  | _, _, _ =>
      SafeParseError
        (issues_at "customerId" c ++ issues_at "amount" a
           ++ issues_at "status" s)
  end.

Definition CreateInvoice_safeParse `{Platform} := FormSchema_omit_id_date.
Definition UpdateInvoice_safeParse `{Platform} := FormSchema_omit_id_date.

(** [error.flatten().fieldErrors]: the messages of each field that has
    any. *)
Record FieldErrors := {
  customerId_errors : option (list string);
  amount_errors : option (list string);
  status_errors : option (list string)
}.

Definition messages_at (path : string) (issues : list ZodIssue)
  : option (list string) :=
  match filter (fun i => String.eqb (issue_path i) path) issues with
  | [] => None
  | found => Some (map issue_message found)
  end.

Definition flatten_fieldErrors (issues : list ZodIssue) : FieldErrors :=
  {| customerId_errors := messages_at "customerId" issues;
     amount_errors := messages_at "amount" issues;
     status_errors := messages_at "status" issues |}.

(** The credentials schema of [authorize]:
    [z.object({ email: z.string().email(), password: z.string().min(6) })]. *)
Record Credentials := { cred_email : JsValue; cred_password : JsValue }.

Definition credentials_safeParse `{Platform} (credentials : Credentials)
  : SafeParseReturnType (string * string) :=
  let e := z_string_email (cred_email credentials) in
  let p := z_string_min 6 (cred_password credentials) in
  match e, p with
  | inl email, inl password => SafeParseSuccess (email, password)
  | _, _ => SafeParseError (issues_at "email" e ++ issues_at "password" p)
  end.

(* ================================================================== *)
(** * The query layer ([app/lib/data.ts]) *)

Section Data.
Context `{Utils}.

Record CardData := {
  numberOfCustomers : Z;
  numberOfInvoices : Z;
  totalPaidInvoices : string;
  totalPendingInvoices : string
}.

(** [Number(cell)] of a whole-number cell; [Number(null)] is [0]. *)
Definition Number_cell (cell : option Z) : Z := nullish cell 0%Z.

Definition fetchCardData : M CardData :=
  try_catch
    (let invoiceCountPromise := sql_count_invoices in
     let customerCountPromise := sql_count_customers in
     let invoiceStatusPromise := sql_status_sums in
     data <- Promise_all3 invoiceCountPromise customerCountPromise
               invoiceStatusPromise ;;
     let '(data0, data1, data2) := data in
     count0 <- property (nth_error data0 0) count ;;
     let numberOfInvoices := Number_cell (Some (nullish count0 0%Z)) in
     count1 <- property (nth_error data1 0) count ;;
     let numberOfCustomers := Number_cell (Some (nullish count1 0%Z)) in
     paid2 <- property (nth_error data2 0) paid ;;
     let totalPaidInvoices := formatCurrency (nullish paid2 0%Z) in
     pending2 <- property (nth_error data2 0) pending ;;
     let totalPendingInvoices := formatCurrency (nullish pending2 0%Z) in
     ret {| numberOfCustomers := numberOfCustomers;
            numberOfInvoices := numberOfInvoices;
            totalPaidInvoices := totalPaidInvoices;
            totalPendingInvoices := totalPendingInvoices |})
    (fun error =>
       console_error "Database Error:" ;;
       throw (Error "Failed to fetch card data.")).

Definition ITEMS_PER_PAGE : Z := 6.

Definition fetchFilteredInvoices (query : string) (currentPage : Z)
  : M (list InvoicesTable) :=
  let offset := ((currentPage - 1) * ITEMS_PER_PAGE)%Z in
  try_catch
    (invoices <- sql_select_filtered_invoices ("%" ++ query ++ "%")%string
                   ITEMS_PER_PAGE offset ;;
     ret invoices)
    (fun error =>
       console_error "Database Error:" ;;
       throw (Error "Failed to fetch invoices.")).

Definition fetchInvoicesPages (query : string) : M Z :=
  try_catch
    (count_rows <- sql_count_filtered ("%" ++ query ++ "%")%string ;;
     cell <- property (nth_error count_rows 0) count ;;
     let totalPages :=
       Math_ceil (inject_Z (Number_cell cell) / inject_Z ITEMS_PER_PAGE)%Q in
     ret totalPages)
    (fun error =>
       console_error "Database Error:" ;;
       throw (Error "Failed to fetch total number of invoices.")).

Record InvoiceForm := {
  form_id : string;
  form_customer_id : string;
  form_amount : number;
  form_status : string
}.

(** [undefined] is [None]. *)
Definition fetchInvoiceById (id : string) : M (option InvoiceForm) :=
  try_catch
    (data <- sql_select_invoice id ;;
     let invoice :=
       map (fun invoice =>
              {| form_id := row_id invoice;
                 form_customer_id := row_customer_id invoice;
                 (* Convert amount from cents to dollars *)
                 form_amount := (number_of_int (row_amount invoice) / 100)%float;
                 form_status := row_status invoice |})
           data in
     console_log "invoice" ;;
     ret (nth_error invoice 0))
    (fun error =>
       console_error "Database Error:" ;;
       throw (Error "Failed to fetch invoice.")).

End Data.

(* ================================================================== *)
(** * The mutation layer ([app/lib/actions.ts]) *)

Section Actions.
Context `{Platform}.

Record State := {
  errors : option FieldErrors;
  message : option string
}.

Definition createInvoice (prevState : State) (formData : FormData)
  : M State :=
  let validatedFields :=
    CreateInvoice_safeParse
      (FormData_get formData "customerId")
      (FormData_get formData "amount")
      (FormData_get formData "status") in
  match validatedFields with
  | SafeParseError error =>
      ret {| errors := Some (flatten_fieldErrors error);
             message := Some "Missing Fields. Failed to Create Invoice." |}
  | SafeParseSuccess data =>
      let amountInCents := (amount data * 100)%float in
      now <- Date_now ;;
      let date := nth 0 (str_split "T" (toISOString now)) EmptyString in
      returned <-
        try_catch
          (sql_insert_invoice (customerId data) amountInCents (status data)
             date ;;
           ret None)
          (fun error =>
             ret (Some {| errors := None;
                          message :=
                            Some "Database Error: Failed to Create Invoice." |})) ;;
      match returned with
      | Some state => ret state
      | None =>
          revalidatePath "/dashboard/invoices" ;;
          redirect "/dashboard/invoices"
      end
  end.

Definition updateInvoice (id : string) (prevState : State)
    (formData : FormData) : M State :=
  let validatedFields :=
    UpdateInvoice_safeParse
      (FormData_get formData "customerId")
      (FormData_get formData "amount")
      (FormData_get formData "status") in
  match validatedFields with
  | SafeParseError error =>
      ret {| errors := Some (flatten_fieldErrors error);
             message := Some "Missing Fields. Failed to Update Invoice." |}
  | SafeParseSuccess data =>
      let amountInCents := (amount data * 100)%float in
      returned <-
        try_catch
          (sql_update_invoice (customerId data) amountInCents (status data)
             id ;;
           ret None)
          (fun error =>
             ret (Some {| errors := None;
                          message :=
                            Some "Database Error: Failed to Update Invoice." |})) ;;
      match returned with
      | Some state => ret state
      | None =>
          revalidatePath "/dashboard/invoices" ;;
          redirect "/dashboard/invoices"
      end
  end.

Definition deleteInvoice (id : string) : M State :=
  try_catch
    (sql_delete_invoice id ;;
     revalidatePath "/dashboard/invoices" ;;
     ret {| errors := None; message := Some "Deleted Invoice" |})
    (fun error =>
       ret {| errors := None;
              message := Some "Database Error: Failed to Delete Invoice." |}).

(** The result is the message, or [undefined] ([None]) when the sign-in
    returns. *)
Definition authenticate (prevState : option string) (formData : FormData)
  : M (option string) :=
  try_catch
    (signIn "credentials" formData ;;
     ret None)
    (fun error =>
       match error with
       | AuthError type =>
           if String.eqb type "CredentialsSignin"
           then ret (Some "Invalid credentials.")
           else ret (Some "Something went wrong.")
       | _ => throw error
       end).

End Actions.

(* ================================================================== *)
(** * The sign-in adapter ([auth.ts]) *)

Section Auth.
Context `{Platform}.

(** [undefined] is [None]. *)
Definition getUser (email : string) : M (option User) :=
  try_catch
    (user <- sql_select_user email ;;
     ret (nth_error user 0))
    (fun error =>
       console_error "Failed to fetch user:" ;;
       throw (Error "Failed to fetch user.")).

(** [null] is [None].  Inside, [Some r] is a [return r] and [None] falls
    through to the last two lines. *)
Definition authorize (credentials : Credentials) : M (option User) :=
  let parsedCredentials := credentials_safeParse credentials in
  returned <-
    match parsedCredentials with
    | SafeParseSuccess (email, password) =>
        user <- getUser email ;;
        match user with
        | None => ret (Some None)
        | Some user =>
            let passwordsMatch :=
              bcrypt_compare password (user_password user) in
            if passwordsMatch then ret (Some (Some user)) else ret None
        end
    | SafeParseError _ => ret None
    end ;;
  match returned with
  | Some result => ret result
  | None =>
      console_log "Invalid credentials" ;;
      ret None
  end.

End Auth.

(* ================================================================== *)
(** * Vocabulary of the statements below *)

(** The world after a statement has been sent. *)
Definition sent (stmt : Statement) (w : World) : World :=
  with_statements (statements w ++ [stmt]) w.

(** Descending order of invoice date. *)
Definition date_ge (a b : InvoiceRow * CustomerRow) : Prop :=
  date_geb a b = true.

(** A joined row matches a query when the customer's name or e-mail, or
    the invoice's amount, date or status, contains it, letter case
    ignored. *)
Definition matches_query (l : Locale) (query : string)
    (r : InvoiceRow * CustomerRow) : bool :=
  let '(i, c) := r in
  contains_ci l (cust_name c) query
  || contains_ci l (cust_email c) query
  || contains_ci l (Z_to_text (inv_amount i)) query
  || contains_ci l (inv_date i) query
  || contains_ci l (inv_status i) query.

Definition matchCount (query : string) (w : World) : Z :=
  Z.of_nat
    (List.length (filter (matches_query (locale w) query)
                         (invoices_join_customers w))).

Section Vocabulary.
Context `{Platform}.

(** The parse both invoice actions start with. *)
Definition form_parse (formData : FormData)
  : SafeParseReturnType InvoiceFields :=
  FormSchema_omit_id_date
    (FormData_get formData "customerId")
    (FormData_get formData "amount")
    (FormData_get formData "status").

(** The shape the credentials schema asks for: an e-mail address and a
    password of six characters or more. *)
Definition well_formed (credentials : Credentials) (email password : string)
  : Prop :=
  cred_email credentials = JsString email /\
  emailRegex_test email = true /\
  cred_password credentials = JsString password /\
  (6 <= String.length password)%nat.

End Vocabulary.

(* ================================================================== *)
(** * A small installation, for the worked examples *)

Definition nat_to_text (n : nat) : string :=
  NilZero.string_of_uint (Nat.to_uint n).

(** A platform whose functions are simple enough to run: decimal
    literals, an e-mail check that looks for [@], a hash that prefixes
    [hashed:], and a sign-in whose outcome is written in the form's
    [outcome] entry; and a plain rendering of cents. *)
Definition demo_signIn (provider : string) (formData : FormData) : M unit :=
  match FormData_get formData "outcome" with
  | JsString "ok" => ret tt
  | JsString "redirect" => throw (NEXT_REDIRECT "/dashboard")
  | JsString type => throw (AuthError type)
  | _ => throw (Error "fetch failed")
  end.

Definition demo_platform : Platform :=
  {| StringToNumber := parse_decimal;
     emailRegex_test := fun s => occurs ["@"%char] (chars s);
     bcrypt_compare :=
       fun data hash => String.eqb hash ("hashed:" ++ data)%string;
     signIn := demo_signIn |}.

Definition demo_utils : Utils :=
  {| formatCurrency :=
       fun cents =>
         ("$" ++ Z_to_text (cents / 100) ++ "."
            ++ string_of_list_ascii (pad2 (Z.to_nat (cents mod 100))))%string |}.

Definition demo_customers : list CustomerRow :=
  [ {| cust_id := "c-1"; cust_name := "Delba de Oliveira";
       cust_email := "delba@oliveira.com";
       cust_image_url := "/customers/delba-de-oliveira.png" |};
    {| cust_id := "c-2"; cust_name := "Lee Robinson";
       cust_email := "lee@robinson.com";
       cust_image_url := "/customers/lee-robinson.png" |} ].

Definition demo_invoice (id customer : string) (cents : Z)
    (status date : string) : InvoiceRow :=
  {| inv_id := id; inv_customer_id := customer; inv_amount := cents;
     inv_status := status; inv_date := date |}.

Definition demo_invoices : list InvoiceRow :=
  [ demo_invoice "i-1" "c-1" 15795 "pending" "2022-12-06";
    demo_invoice "i-2" "c-2" 20348 "pending" "2022-11-14";
    demo_invoice "i-3" "c-1" 3040 "paid" "2022-10-29";
    demo_invoice "i-4" "c-2" 44800 "paid" "2023-09-10";
    demo_invoice "i-5" "c-1" 34577 "pending" "2023-08-05";
    demo_invoice "i-6" "c-2" 54246 "pending" "2023-07-16";
    demo_invoice "i-7" "c-1" 666 "pending" "2023-06-27";
    demo_invoice "i-8" "c-2" 32545 "paid" "2023-06-09" ].

Definition demo_users : list User :=
  [ {| user_id := "u-1"; user_email := "user@nextmail.com";
       user_password := "hashed:123456" |} ].

Definition demo_clock : Date :=
  {| year := 2024; month := 5; day := 7;
     hours := 9; minutes := 30; seconds := 15; milliseconds := 42 |}.

(** A database that answers every statement, in the locale [C]. *)
Definition demo_world : World :=
  {| invoices := demo_invoices;
     customers := demo_customers;
     users := demo_users;
     refuses := fun _ => false;
     uuid_generate_v4 := fun n => ("uuid-" ++ nat_to_text n)%string;
     uuid_count := 0;
     clock := demo_clock;
     statements := [];
     revalidated := [];
     console := [];
     locale := C_locale |}.

(** A name that starts with a capital A with an acute accent, the code
    point 193, and the same in lower case, where the letter is 225. *)
Definition Angel : string := String "193"%char "ngel".
Definition angel : string := String "225"%char "ngel".

Definition demo_angel : CustomerRow :=
  {| cust_id := "c-4"; cust_name := (Angel ++ " Ruiz")%string;
     cust_email := "ruiz@mail.com";
     cust_image_url := "/customers/angel-ruiz.png" |}.

(** The database in a Latin-1 locale, with that customer and an invoice
    of theirs. *)
Definition demo_world_latin1 : World :=
  {| invoices :=
       demo_invoices ++ [demo_invoice "i-9" "c-4" 5000 "paid" "2024-01-15"];
     customers := demo_customers ++ [demo_angel];
     users := demo_users;
     refuses := fun _ => false;
     uuid_generate_v4 := fun n => ("uuid-" ++ nat_to_text n)%string;
     uuid_count := 0;
     clock := demo_clock;
     statements := [];
     revalidated := [];
     console := [];
     locale := Latin1_locale |}.

(** The same, with the endpoint down. *)
Definition demo_outage : World :=
  {| invoices := demo_invoices;
     customers := demo_customers;
     users := demo_users;
     refuses := fun _ => true;
     uuid_generate_v4 := fun n => ("uuid-" ++ nat_to_text n)%string;
     uuid_count := 0;
     clock := demo_clock;
     statements := [];
     revalidated := [];
     console := [];
     locale := C_locale |}.

(** The same, before the first invoice. *)
Definition demo_fresh : World := with_invoices [] demo_world.

Definition demo_form (customer amount_text status_text : string) : FormData :=
  [ ("customerId", EntryString customer);
    ("amount", EntryString amount_text);
    ("status", EntryString status_text) ].

Definition no_state : State := {| errors := None; message := None |}.

Definition demo_credentials (email password : string) : Credentials :=
  {| cred_email := JsString email; cred_password := JsString password |}.

(* ================================================================== *)
(** * Further vocabulary *)

(** The record [fetchInvoiceById] makes of a row. *)
Definition invoice_form (r : InvoiceRow) : InvoiceForm :=
  {| form_id := inv_id r;
     form_customer_id := inv_customer_id r;
     form_amount := (number_of_int (inv_amount r) / 100)%float;
     form_status := inv_status r |}.

(** The sum of the amounts of the invoices of one status. *)
Definition total_of_status (s : string) (l : list InvoiceRow) : Z :=
  fold_right Z.add 0%Z
    (map inv_amount (filter (fun r => String.eqb (inv_status r) s) l)).

(** Nothing but the statement log and the console differs. *)
Definition unchanged_data (w w' : World) : Prop :=
  invoices w' = invoices w /\ customers w' = customers w /\
  users w' = users w /\ revalidated w' = revalidated w.

(* ================================================================== *)
(** * The other queries of [app/lib/data.ts] *)

Record Revenue := { rev_month : string; rev_revenue : Z }.

(** The statements of the four functions below. *)
Inductive Query :=
| SELECT_revenue
| SELECT_latest_invoices
| SELECT_customers
| SELECT_filtered_customers (pattern : string).

(** The rest of the installation, around the [World]: the revenue table,
    the order in which the database sorts text ([ORDER BY name]), which of
    the four statements the endpoint fails, and the statements sent. *)
Record Site := {
  world : World;
  revenue : list Revenue;
  collation_leb : string -> string -> bool;
  declines : Query -> bool;
  queries : list Query
}.

Definition with_world (w : World) (s : Site) : Site :=
  {| world := w; revenue := revenue s; collation_leb := collation_leb s;
     declines := declines s; queries := queries s |}.

Definition with_queries (l : list Query) (s : Site) : Site :=
  {| world := world s; revenue := revenue s;
     collation_leb := collation_leb s; declines := declines s;
     queries := l |}.

Definition SiteM (A : Type) : Type := Site -> Completion A * Site.

Definition site_ret {A} (a : A) : SiteM A := fun s => (Normal a, s).

Definition site_throw {A} (e : Exception) : SiteM A := fun s => (Throw e, s).

Definition site_bind {A B} (m : SiteM A) (k : A -> SiteM B) : SiteM B :=
  fun s =>
    match m s with
    | (Normal a, s') => k a s'
    | (Throw e, s') => (Throw e, s')
    end.

Definition site_try_catch {A} (body : SiteM A)
    (handler : Exception -> SiteM A) : SiteM A :=
  fun s =>
    match body s with
    | (Normal a, s') => (Normal a, s')
    | (Throw e, s') => handler e s'
    end.

(** A step that only concerns the [World]. *)
Definition in_world {A} (m : M A) : SiteM A :=
  fun s => let '(r, w') := m (world s) in (r, with_world w' s).

Declare Scope site_scope.
Delimit Scope site_scope with site.
Notation "x <- m ;; k" := (site_bind m (fun x => k))
  (at level 61, m at next level, right associativity) : site_scope.
Notation "m ;; k" := (site_bind m (fun _ => k))
  (at level 61, right associativity) : site_scope.

(** Sending one of the four statements: recorded, then failed or
    answered. *)
Definition sql_query {A} (q : Query) (answer : Site -> A) : SiteM A :=
  fun s =>
    let s1 := with_queries (queries s ++ [q]) s in
    if declines s q
    then (Throw (NeonDbError "the endpoint failed the statement"), s1)
    else (Normal (answer s1), s1).

(** [SELECT * FROM revenue] *)
Definition sql_select_revenue : SiteM (list Revenue) :=
  sql_query SELECT_revenue revenue.

Record LatestInvoiceRaw := {
  raw_amount : Z;
  raw_name : string;
  raw_image_url : string;
  raw_email : string;
  raw_id : string
}.

(** [SELECT invoices.amount, customers.name, customers.image_url,
     customers.email, invoices.id
     FROM invoices JOIN customers ON invoices.customer_id = customers.id
     ORDER BY invoices.date DESC LIMIT 5] *)
Definition select_latest (r : InvoiceRow * CustomerRow) : LatestInvoiceRaw :=
  let '(i, c) := r in
  {| raw_amount := inv_amount i; raw_name := cust_name c;
     raw_image_url := cust_image_url c; raw_email := cust_email c;
     raw_id := inv_id i |}.

Definition latest_five (w : World) : list (InvoiceRow * CustomerRow) :=
  firstn 5 (order_by_date_desc (invoices_join_customers w)).

Definition sql_select_latest_invoices : SiteM (list LatestInvoiceRaw) :=
  sql_query SELECT_latest_invoices
    (fun s => map select_latest (latest_five (world s))).

(** [ORDER BY name ASC], by insertion, in the database's order of text. *)
Fixpoint insert_by_name {A} (leb : string -> string -> bool)
    (name : A -> string) (x : A) (l : list A) : list A :=
  match l with
  | [] => [x]
  | y :: l' =>
      if leb (name x) (name y) then x :: l
      else y :: insert_by_name leb name x l'
  end.

Definition order_by_name_asc {A} (leb : string -> string -> bool)
    (name : A -> string) (l : list A) : list A :=
  fold_right (insert_by_name leb name) [] l.

Record CustomerField := { field_id : string; field_name : string }.

(** [SELECT id, name FROM customers ORDER BY name ASC] *)
Definition sql_select_customers : SiteM (list CustomerField) :=
  sql_query SELECT_customers
    (fun s =>
       map (fun c => {| field_id := cust_id c; field_name := cust_name c |})
           (order_by_name_asc (collation_leb s) cust_name
              (customers (world s)))).

(** [FROM customers LEFT JOIN invoices
     ON customers.id = invoices.customer_id]: a customer without invoices
    stays, with the invoice columns [NULL]. *)
Definition customer_invoices (w : World) (c : CustomerRow)
  : list InvoiceRow :=
  filter (fun i => String.eqb (cust_id c) (inv_customer_id i)) (invoices w).

Definition left_join_rows (w : World) (c : CustomerRow)
  : list (CustomerRow * option InvoiceRow) :=
  match customer_invoices w c with
  | [] => [(c, None)]
  | found => map (fun i => (c, Some i)) found
  end.

Definition customers_left_join_invoices (w : World)
  : list (CustomerRow * option InvoiceRow) :=
  flat_map (left_join_rows w) (customers w).

(** [WHERE customers.name ILIKE p OR customers.email ILIKE p] *)
Definition where_customer_ilike (l : Locale) (p : string) (c : CustomerRow)
  : bool :=
  ilike l (cust_name c) p || ilike l (cust_email c) p.

Definition customer_eqb (a b : CustomerRow) : bool :=
  String.eqb (cust_id a) (cust_id b)
  && String.eqb (cust_name a) (cust_name b)
  && String.eqb (cust_email a) (cust_email b)
  && String.eqb (cust_image_url a) (cust_image_url b).

(** [GROUP BY customers.id, customers.name, customers.email,
     customers.image_url]: one group for each distinct customer row. *)
Fixpoint group_keys (l : list CustomerRow) : list CustomerRow :=
  match l with
  | [] => []
  | c :: l' => c :: filter (fun d => negb (customer_eqb c d)) (group_keys l')
  end.

(** [CASE WHEN invoices.status = s THEN invoices.amount ELSE 0 END] on a
    row of the left join. *)
Definition joined_amount_when (s : string)
    (r : CustomerRow * option InvoiceRow) : Z :=
  match snd r with
  | Some i => amount_when s i
  | None => 0%Z
  end.

(** [COUNT(invoices.id)]: the rows where it is not [NULL]. *)
Definition COUNT_invoice_id (rows : list (CustomerRow * option InvoiceRow))
  : option Z :=
  Some (Z.of_nat
          (List.length
             (filter (fun r => match snd r with Some _ => true | None => false end)
                     rows))).

Record CustomersTableRaw := {
  ctr_id : string;
  ctr_name : string;
  ctr_email : string;
  ctr_image_url : string;
  ctr_total_invoices : option Z;
  ctr_total_pending : option Z;
  ctr_total_paid : option Z
}.

Definition aggregate_customer (rows : list (CustomerRow * option InvoiceRow))
    (c : CustomerRow) : CustomersTableRaw :=
  let group := filter (fun r => customer_eqb c (fst r)) rows in
  {| ctr_id := cust_id c;
     ctr_name := cust_name c;
     ctr_email := cust_email c;
     ctr_image_url := cust_image_url c;
     ctr_total_invoices := COUNT_invoice_id group;
     ctr_total_pending := SUM (joined_amount_when "pending") group;
     ctr_total_paid := SUM (joined_amount_when "paid") group |}.

(** [SELECT customers.id, customers.name, customers.email,
     customers.image_url, COUNT(invoices.id) AS total_invoices,
     SUM(CASE ... 'pending' ...) AS total_pending,
     SUM(CASE ... 'paid' ...) AS total_paid
     FROM customers LEFT JOIN invoices ON ...
     WHERE ... GROUP BY ... ORDER BY customers.name ASC] *)
Definition sql_select_filtered_customers (pattern : string)
  : SiteM (list CustomersTableRaw) :=
  sql_query (SELECT_filtered_customers pattern)
    (fun s =>
       let rows :=
         filter (fun r => where_customer_ilike (locale (world s)) pattern
                                               (fst r))
                (customers_left_join_invoices (world s)) in
       order_by_name_asc (collation_leb s) ctr_name
         (map (aggregate_customer rows) (group_keys (map fst rows)))).

Section MoreData.
Context `{Utils}.

(** The pause of one second that the source puts before the query (a
    timer that resolves a promise) changes nothing modelled here. *)
Definition fetchRevenue : SiteM (list Revenue) :=
  site_try_catch
    (in_world (console_log "Fetching revenue data...") ;;
     data <- sql_select_revenue ;;
     in_world (console_log "Data fetch completed after 1 sec.") ;;
     let revenueData :=
       map (fun row => {| rev_month := rev_month row;
                          rev_revenue := rev_revenue row |})
           data in
     site_ret revenueData)%site
    (fun error =>
       (in_world (console_error "Database Error:") ;;
        site_throw (Error "Failed to fetch revenue data."))%site).

Record LatestInvoice := {
  latest_amount : string;
  latest_name : string;
  latest_image_url : string;
  latest_email : string;
  latest_id : string
}.

Definition fetchLatestInvoices : SiteM (list LatestInvoice) :=
  site_try_catch
    (data <- sql_select_latest_invoices ;;
     let latestInvoices :=
       map (fun invoice =>
              {| latest_amount := formatCurrency (raw_amount invoice);
                 latest_name := raw_name invoice;
                 latest_image_url := raw_image_url invoice;
                 latest_email := raw_email invoice;
                 latest_id := raw_id invoice |})
           data in
     site_ret latestInvoices)%site
    (fun error =>
       (in_world (console_error "Database Error:") ;;
        site_throw (Error "Failed to fetch the latest invoices."))%site).

Definition fetchCustomers : SiteM (list CustomerField) :=
  site_try_catch
    (data <- sql_select_customers ;;
     site_ret
       (map (fun customer => {| field_id := field_id customer;
                                field_name := field_name customer |})
            data))%site
    (fun err =>
       (in_world (console_error "Database Error:") ;;
        site_throw (Error "Failed to fetch all customers."))%site).

Record FormattedCustomersTable := {
  fc_id : string;
  fc_name : string;
  fc_email : string;
  fc_image_url : string;
  fc_total_invoices : Z;
  fc_total_pending : string;
  fc_total_paid : string
}.

Definition fetchFilteredCustomers (query : string)
  : SiteM (list FormattedCustomersTable) :=
  site_try_catch
    (data <- sql_select_filtered_customers ("%" ++ query ++ "%")%string ;;
     let customers :=
       map (fun customer =>
              {| fc_id := ctr_id customer;
                 fc_name := ctr_name customer;
                 fc_email := ctr_email customer;
                 fc_image_url := ctr_image_url customer;
                 fc_total_invoices :=
                   Number_cell (ctr_total_invoices customer);
                 fc_total_pending :=
                   formatCurrency (Number_cell (ctr_total_pending customer));
                 fc_total_paid :=
                   formatCurrency (Number_cell (ctr_total_paid customer)) |})
           data in
     site_ret customers)%site
    (fun err =>
       (in_world (console_error "Database Error:") ;;
        site_throw (Error "Failed to fetch customer table."))%site).

End MoreData.

(** The demo installation as a site, text in byte order. *)
Definition demo_site (w : World) (down : bool) : Site :=
  {| world := w;
     revenue := [ {| rev_month := "Jan"; rev_revenue := 2000 |};
                  {| rev_month := "Feb"; rev_revenue := 1800 |} ];
     collation_leb := String.leb;
     declines := fun _ => down;
     queries := [] |}.

Definition demo_newcomer : CustomerRow :=
  {| cust_id := "c-3"; cust_name := "Amy Burns";
     cust_email := "amy@burns.com";
     cust_image_url := "/customers/amy-burns.png" |}.

(** The demo world with a third customer, who has no invoice yet. *)
Definition demo_world_newcomer : World :=
  {| invoices := demo_invoices;
     customers := demo_customers ++ [demo_newcomer];
     users := demo_users;
     refuses := fun _ => false;
     uuid_generate_v4 := fun n => ("uuid-" ++ nat_to_text n)%string;
     uuid_count := 0;
     clock := demo_clock;
     statements := [];
     revalidated := [];
     console := [];
     locale := C_locale |}.

(** Ascending order of a name, in a given order of text. *)
Definition name_le {A} (leb : string -> string -> bool) (name : A -> string)
    (a b : A) : Prop :=
  leb (name a) (name b) = true.

Section MoreVocabulary.
Context `{Utils}.

(** A joined row as [fetchLatestInvoices] shows it. *)
Definition latest_invoice (r : InvoiceRow * CustomerRow) : LatestInvoice :=
  {| latest_amount := formatCurrency (inv_amount (fst r));
     latest_name := cust_name (snd r);
     latest_image_url := cust_image_url (snd r);
     latest_email := cust_email (snd r);
     latest_id := inv_id (fst r) |}.

(** A customer with the number of its invoices and the totals of its
    pending and paid ones, as [fetchFilteredCustomers] shows it. *)
Definition customer_summary (w : World) (c : CustomerRow)
  : FormattedCustomersTable :=
  {| fc_id := cust_id c;
     fc_name := cust_name c;
     fc_email := cust_email c;
     fc_image_url := cust_image_url c;
     fc_total_invoices := Z.of_nat (List.length (customer_invoices w c));
     fc_total_pending :=
       formatCurrency (total_of_status "pending" (customer_invoices w c));
     fc_total_paid :=
       formatCurrency (total_of_status "paid" (customer_invoices w c)) |}.

End MoreVocabulary.

(** The tables and the page cache of the world inside are as they
    were. *)
Definition site_unchanged_data (s s' : Site) : Prop :=
  unchanged_data (world s) (world s') /\ revenue s' = revenue s.

(* ================================================================== *)
(** * Facts about text *)

Lemma chars_append (a b : string) :
  chars (a ++ b)%string = chars a ++ chars b.
Proof.
  unfold chars. induction a as [|c a IH]; simpl; [reflexivity|].
  now rewrite IH.
Qed.

Lemma chars_of_text (l : text) : chars (string_of_list_ascii l) = l.
Proof. apply list_ascii_of_string_of_list_ascii. Qed.

Lemma all_chars_complete (c : ascii) : In c all_chars.
Proof.
  rewrite <- (ascii_nat_embedding c). apply in_map, in_seq.
  pose proof (nat_ascii_bounded c). lia.
Qed.

Lemma lower_app (l : Locale) (a b : text) :
  lower l (a ++ b) = lower l a ++ lower l b.
Proof. apply map_app. Qed.

(** Folding leaves a pattern character as it is. *)
Lemma lower_char_special (l : Locale) (c : ascii) :
  like_special c = true -> lower_char l c = c.
Proof.
  intros Hc. pose proof (lower_char_keeps l) as Hkeeps.
  unfold keeps_like_special in Hkeeps. rewrite forallb_forall in Hkeeps.
  specialize (Hkeeps c (all_chars_complete c)). rewrite Hc in Hkeeps.
  now apply Ascii.eqb_eq.
Qed.

(** Folding makes no pattern character. *)
Lemma like_special_lower (l : Locale) (c : ascii) :
  like_special (lower_char l c) = like_special c.
Proof.
  destruct (like_special c) eqn:Hc.
  - now rewrite (lower_char_special l c Hc).
  - pose proof (lower_char_keeps l) as Hkeeps.
    unfold keeps_like_special in Hkeeps. rewrite forallb_forall in Hkeeps.
    specialize (Hkeeps c (all_chars_complete c)). rewrite Hc in Hkeeps.
    now apply negb_true_iff.
Qed.

Lemma lower_char_percent (l : Locale) : lower_char l "%" = "%"%char.
Proof. now apply lower_char_special. Qed.

Lemma plain_lower (l : Locale) (q : text) :
  forallb (fun c => negb (like_special c)) q = true ->
  forallb (fun c => negb (like_special c)) (lower l q) = true.
Proof.
  induction q as [|c q IH]; simpl; [trivial|].
  rewrite !andb_true_iff. intros [Hc Hq].
  rewrite like_special_lower. auto.
Qed.

(** [%] at the head of a pattern tries every suffix of the subject. *)
Lemma like_percent (p s : text) :
  like ("%"%char :: p) s =
  like p s || match s with [] => false | _ :: s' => like ("%"%char :: p) s' end.
Proof. destruct s; reflexivity. Qed.

(** A character that is not special stands for itself. *)
Lemma like_literal (c : ascii) (p s : text) :
  like_special c = false ->
  like (c :: p) s =
  match s with [] => false | d :: s' => Ascii.eqb c d && like p s' end.
Proof.
  unfold like_special. intros Hc.
  apply orb_false_iff in Hc as [Hc Hb].
  apply orb_false_iff in Hc as [Hp Hu].
  simpl. rewrite Hp, Hu, Hb. reflexivity.
Qed.

Lemma like_only_percent (s : text) : like ["%"%char] s = true.
Proof.
  induction s as [|d s IH].
  - reflexivity.
  - rewrite like_percent, IH. apply orb_true_r.
Qed.

(** A plain text followed by [%] asks for a prefix. *)
Lemma like_plain_prefix (q s : text) :
  forallb (fun c => negb (like_special c)) q = true ->
  like (q ++ ["%"%char]) s = starts_with q s.
Proof.
  revert s. induction q as [|c q IH]; intros s Hq.
  - simpl app. rewrite like_only_percent. reflexivity.
  - simpl in Hq. apply andb_true_iff in Hq as [Hc Hq].
    apply negb_true_iff in Hc.
    simpl app. rewrite (like_literal _ _ _ Hc).
    destruct s as [|d s]; [reflexivity|].
    simpl. now rewrite IH.
Qed.

(** A plain text between two [%] asks for an occurrence. *)
Lemma like_plain_occurs (q s : text) :
  forallb (fun c => negb (like_special c)) q = true ->
  like ("%"%char :: q ++ ["%"%char]) s = occurs q s.
Proof.
  intros Hq. induction s as [|d s IH].
  - rewrite like_percent, (like_plain_prefix _ _ Hq). reflexivity.
  - rewrite like_percent, (like_plain_prefix _ _ Hq), IH. reflexivity.
Qed.

(** For a query without special characters, [ILIKE '%query%'] is
    containment, letter case ignored. *)
Lemma ilike_plain_contains (l : Locale) (subject query : string) :
  plain_query query ->
  ilike l subject ("%" ++ query ++ "%")%string = contains_ci l subject query.
Proof.
  intros Hq. unfold ilike, contains_ci.
  rewrite !chars_append. change (chars "%") with ["%"%char].
  rewrite lower_app. simpl app. rewrite lower_app.
  change (lower l ["%"%char]) with [lower_char l "%"].
  rewrite lower_char_percent.
  apply like_plain_occurs, plain_lower, Hq.
Qed.

Lemma starts_with_spec (q s : text) :
  starts_with q s = true <-> exists r, s = q ++ r.
Proof.
  revert s. induction q as [|c q IH]; intros s; simpl.
  - split; [intros _; now exists s | trivial].
  - destruct s as [|d s].
    + split; [discriminate | intros [r Hr]; discriminate].
    + rewrite andb_true_iff, Ascii.eqb_eq, IH. split.
      * intros [-> [r ->]]. now exists r.
      * intros [r Hr]. injection Hr as -> ->. split; [reflexivity | now exists r].
Qed.

(** [occurs] is containment: the subject is some text, the query, and
    some more text. *)
Lemma occurs_spec (q s : text) :
  occurs q s = true <-> exists l r, s = l ++ q ++ r.
Proof.
  induction s as [|d s IH].
  - simpl. rewrite orb_false_r, starts_with_spec. split.
    + intros [r Hr]. now exists [], r.
    + intros [l [r Hr]]. destruct l; [now exists r|discriminate].
  - simpl occurs. rewrite orb_true_iff, starts_with_spec, IH. split.
    + intros [[r Hr] | [l [r Hr]]].
      * now exists [], r.
      * exists (d :: l), r. simpl. now rewrite Hr.
    + intros [l [r Hr]]. destruct l as [|c l].
      * left. now exists r.
      * right. injection Hr as _ Hr. now exists l, r.
Qed.

(* ================================================================== *)
(** * Facts about dates *)

Lemma digit_is_not_T (n : nat) : Ascii.eqb (digit n) "T" = false.
Proof.
  unfold digit.
  assert (Hlt : (n mod 10 < 10)%nat) by (apply Nat.mod_upper_bound; lia).
  generalize dependent (n mod 10)%nat. intros k Hlt.
  do 10 (destruct k as [|k]; [reflexivity|]). lia.
Qed.

Lemma iso_date_has_no_T (d : Date) :
  forallb (fun c => negb (Ascii.eqb c "T")) (iso_date d) = true.
Proof.
  unfold iso_date, pad4, pad3, pad2. cbn [app forallb].
  rewrite !digit_is_not_T. reflexivity.
Qed.

Lemma split_chars_first (sep : ascii) (pre cur rest : text) :
  forallb (fun c => negb (Ascii.eqb c sep)) pre = true ->
  split_chars sep cur (pre ++ sep :: rest) =
  string_of_list_ascii (rev cur ++ pre) :: split_chars sep [] rest.
Proof.
  revert cur. induction pre as [|c pre IH]; intros cur Hpre; simpl.
  - rewrite Ascii.eqb_refl, app_nil_r. reflexivity.
  - simpl in Hpre. apply andb_true_iff in Hpre as [Hc Hpre].
    apply negb_true_iff in Hc. rewrite Hc, IH by assumption.
    simpl. now rewrite <- app_assoc.
Qed.

(** [toISOString().split('T')[0]] is the date part. *)
Lemma toISOString_split_date (d : Date) :
  nth 0 (str_split "T" (toISOString d)) EmptyString = string_of_list_ascii (iso_date d).
Proof.
  unfold str_split, toISOString. rewrite chars_of_text.
  rewrite split_chars_first by apply iso_date_has_no_T.
  reflexivity.
Qed.

(* ================================================================== *)
(** * Facts about [ORDER BY] *)

Lemma date_geb_total (a b : InvoiceRow * CustomerRow) :
  date_geb a b = false -> date_geb b a = true.
Proof.
  unfold date_geb. intros Hab.
  destruct (String.leb_total (inv_date (fst b)) (inv_date (fst a)));
    congruence.
Qed.

Lemma insert_by_date_perm x l : Permutation (insert_by_date x l) (x :: l).
Proof.
  induction l as [|y l IH]; simpl; [reflexivity|].
  destruct (date_geb x y); [reflexivity|].
  rewrite IH. apply perm_swap.
Qed.

Lemma order_by_date_desc_perm l : Permutation (order_by_date_desc l) l.
Proof.
  induction l as [|x l IH]; simpl; [reflexivity|].
  rewrite insert_by_date_perm. now constructor.
Qed.

Lemma insert_by_date_hd x y l :
  date_ge y x -> HdRel date_ge y l -> HdRel date_ge y (insert_by_date x l).
Proof.
  intros Hyx Hl. destruct l as [|z l]; simpl.
  - now constructor.
  - destruct (date_geb x z); constructor; [assumption|].
    now inversion Hl.
Qed.

Lemma insert_by_date_sorted x l :
  Sorted date_ge l -> Sorted date_ge (insert_by_date x l).
Proof.
  induction 1 as [|y l Hl IH Hhd]; simpl.
  - repeat constructor.
  - destruct (date_geb x y) eqn:Hxy.
    + constructor; [now constructor | now constructor].
    + constructor; [assumption|].
      apply insert_by_date_hd; [|assumption].
      now apply date_geb_total.
Qed.

Lemma order_by_date_desc_sorted l : Sorted date_ge (order_by_date_desc l).
Proof.
  induction l as [|x l IH]; simpl; [constructor|].
  now apply insert_by_date_sorted.
Qed.

(* ================================================================== *)
(** * Facts about numbers *)

Lemma SFcompare_refl_nan (s : spec_float) :
  SFeqb s s = false -> s = S754_nan.
Proof.
  unfold SFeqb. destruct s as [z| i | |sg m e]; simpl; try discriminate.
  - destruct i; discriminate.
  - reflexivity.
  - rewrite Z.compare_refl.
    change (PosDef.Pos.compare_cont Eq m m) with (Pos.compare m m).
    rewrite Pos.compare_refl. destruct sg; discriminate.
Qed.

(** A number that is at most [0] is a number. *)
Lemma leb_zero_not_nan (x : number) :
  (x <=? 0)%float = true -> is_nan x = false.
Proof.
  unfold is_nan. rewrite leb_spec, eqb_spec. intros Hle.
  destruct (SFeqb (Prim2SF x) (Prim2SF x)) eqn:Heq; [reflexivity|].
  apply SFcompare_refl_nan in Heq. rewrite Heq in Hle. discriminate.
Qed.

(** A number above [0] is a number, and is not at most [0]. *)
Lemma ltb_zero_accepted (x : number) :
  (0 <? x)%float = true -> is_nan x = false /\ (x <=? 0)%float = false.
Proof.
  unfold is_nan. rewrite ltb_spec, leb_spec, eqb_spec.
  change (Prim2SF 0) with (S754_zero false).
  unfold SFltb, SFleb. intros Hlt. split.
  - destruct (SFeqb (Prim2SF x) (Prim2SF x)) eqn:Heq; [reflexivity|].
    apply SFcompare_refl_nan in Heq. rewrite Heq in Hlt. discriminate.
  - destruct (Prim2SF x) as [z|i| |sg m e]; simpl in *; try discriminate.
    + destruct i; [discriminate | reflexivity].
    + destruct sg; [discriminate | reflexivity].
Qed.

(** On a whole number [Math.round] changes nothing. *)
Lemma int_of_number_round (x : number) (z : Z) :
  int_of_number x = Some z -> Math_round x = Some z.
Proof.
  unfold int_of_number, Math_round.
  destruct (Prim2SF x) as [sz|i| |sg m e]; try discriminate; [trivial|].
  destruct (0 <=? e)%Z eqn:He; [trivial|].
  destruct (Z.pos m mod 2 ^ (- e) =? 0)%Z eqn:Hm; [|discriminate].
  intros Hz. injection Hz as <-. f_equal.
  apply Z.leb_gt in He. apply Z.eqb_eq in Hm.
  assert (Hd : (0 < 2 ^ (- e))%Z) by (apply Z.pow_pos_nonneg; lia).
  set (d := (2 ^ (- e))%Z) in *.
  assert (Hs : (signed sg m mod d = 0)%Z).
  { destruct sg; simpl; [|assumption].
    change (Z.neg m) with (- Z.pos m)%Z.
    apply Z.mod_opp_l_z; [lia | assumption]. }
  apply Z.div_exact in Hs; [|lia].
  set (k := (signed sg m / d)%Z) in *.
  rewrite Hs.
  symmetry. apply Z.div_unique with (r := d); [lia | nia].
Qed.

(* ================================================================== *)
(** * Facts about the schemas *)

Section SchemaFacts.
Context `{Platform}.

(** What the invoice schema accepts, in the words of the form: a
    customer string, an amount that coerces to a number above zero, one
    of the two statuses. *)
Lemma FormSchema_accepts (customerId_in amount_in status_in : JsValue)
    (c s : string) :
  customerId_in = JsString c ->
  (0 <? Number amount_in)%float = true ->
  status_in = JsString s ->
  s = "pending" \/ s = "paid" ->
  FormSchema_omit_id_date customerId_in amount_in status_in =
  SafeParseSuccess
    {| customerId := c; amount := Number amount_in; status := s |}.
Proof.
  intros -> Ha -> Hs. apply ltb_zero_accepted in Ha as [Hnan Hle].
  unfold FormSchema_omit_id_date, z_coerce_number_gt, z_enum_status.
  rewrite Hnan, Hle.
  destruct Hs as [-> | ->]; reflexivity.
Qed.

(** An amount that coerces to at most zero is turned down, with the
    message of the [amount] field. *)
Lemma FormSchema_rejects_amount (customerId_in amount_in status_in : JsValue) :
  (Number amount_in <=? 0)%float = true ->
  exists error,
    FormSchema_omit_id_date customerId_in amount_in status_in =
    SafeParseError error /\
    amount_errors (flatten_fieldErrors error) =
    Some ["Please enter an amount greater than $0."].
Proof.
  intros Hle. pose proof (leb_zero_not_nan _ Hle) as Hnan.
  unfold FormSchema_omit_id_date, z_coerce_number_gt.
  rewrite Hnan, Hle.
  destruct (z_string (Some "Please select a customer.") customerId_in)
    as [c | ec] eqn:Hc;
    destruct (z_enum_status (Some "Please select an invoice status.")
                status_in) as [s | es] eqn:Hs;
    eexists; (split; [reflexivity|]).
  - reflexivity.
  - unfold z_enum_status in Hs.
    destruct status_in; try (injection Hs as <-; reflexivity).
    destruct (String.eqb s "pending" || String.eqb s "paid");
      [discriminate | injection Hs as <-; reflexivity].
  - unfold z_string in Hc.
    destruct customerId_in; try discriminate;
      injection Hc as <-; reflexivity.
  - unfold z_string in Hc. unfold z_enum_status in Hs.
    destruct customerId_in; try discriminate; injection Hc as <-;
      (destruct status_in; try (injection Hs as <-; reflexivity);
       destruct (String.eqb s "pending" || String.eqb s "paid");
       [discriminate | injection Hs as <-; reflexivity]).
Qed.

Lemma credentials_accepts credentials email password :
  well_formed credentials email password ->
  credentials_safeParse credentials = SafeParseSuccess (email, password).
Proof.
  intros (He & Hre & Hp & Hlen).
  unfold credentials_safeParse, z_string_email, z_string_min.
  rewrite He, Hp. simpl. rewrite Hre.
  apply Nat.ltb_ge in Hlen. rewrite Hlen. reflexivity.
Qed.

Lemma credentials_accepted_inv credentials email password :
  credentials_safeParse credentials = SafeParseSuccess (email, password) ->
  well_formed credentials email password.
Proof.
  unfold credentials_safeParse, z_string_email, z_string_min, well_formed.
  destruct (cred_email credentials) as [| |e|x|o]; simpl; try discriminate.
  destruct (emailRegex_test e) eqn:Hre;
    destruct (cred_password credentials) as [| |p|x|o]; simpl;
    try discriminate.
  destruct (String.length p <? 6)%nat eqn:Hlen; [discriminate|].
  intros Heq. injection Heq as <- <-.
  apply Nat.ltb_ge in Hlen. auto.
Qed.

End SchemaFacts.

(* ================================================================== *)
(** * The mutation layer: what the code does *)

Section ActionFacts.
Context `{Platform}.

Lemma createInvoice_rejected prevState formData error w :
  form_parse formData = SafeParseError error ->
  createInvoice prevState formData w =
  (Normal {| errors := Some (flatten_fieldErrors error);
             message := Some "Missing Fields. Failed to Create Invoice." |},
   w).
Proof.
  unfold form_parse, createInvoice, CreateInvoice_safeParse.
  intros ->. reflexivity.
Qed.

Lemma updateInvoice_rejected id prevState formData error w :
  form_parse formData = SafeParseError error ->
  updateInvoice id prevState formData w =
  (Normal {| errors := Some (flatten_fieldErrors error);
             message := Some "Missing Fields. Failed to Update Invoice." |},
   w).
Proof.
  unfold form_parse, updateInvoice, UpdateInvoice_safeParse.
  intros ->. reflexivity.
Qed.

Lemma createInvoice_accepted prevState formData data cents w :
  form_parse formData = SafeParseSuccess data ->
  let date := string_of_list_ascii (iso_date (clock w)) in
  let stmt := INSERT_invoice (customerId data) (amount data * 100)%float
                (status data) date in
  int_of_number (amount data * 100)%float = Some cents ->
  refuses w stmt = false ->
  createInvoice prevState formData w =
  (Throw (NEXT_REDIRECT "/dashboard/invoices"),
   with_revalidated (revalidated w ++ ["/dashboard/invoices"])
     (with_uuid_count (S (uuid_count w))
        (with_invoices
           (invoices w ++
              [{| inv_id := uuid_generate_v4 w (uuid_count w);
                  inv_customer_id := customerId data;
                  inv_amount := cents;
                  inv_status := status data;
                  inv_date := date |}])
           (sent stmt w)))).
Proof.
  intros Hp date stmt Hint Href.
  unfold form_parse in Hp.
  unfold createInvoice, CreateInvoice_safeParse. rewrite Hp.
  unfold bind, try_catch, Date_now, sql_insert_invoice, sql, bind_amount.
  rewrite toISOString_split_date.
  fold date. fold stmt. rewrite Href, Hint.
  reflexivity.
Qed.

Lemma updateInvoice_accepted id prevState formData data cents w :
  form_parse formData = SafeParseSuccess data ->
  let stmt := UPDATE_invoice (customerId data) (amount data * 100)%float
                (status data) id in
  int_of_number (amount data * 100)%float = Some cents ->
  refuses w stmt = false ->
  updateInvoice id prevState formData w =
  (Throw (NEXT_REDIRECT "/dashboard/invoices"),
   with_revalidated (revalidated w ++ ["/dashboard/invoices"])
     (with_invoices
        (map (fun r => if String.eqb (inv_id r) id
                       then set_invoice (customerId data) cents (status data) r
                       else r)
             (invoices w))
        (sent stmt w))).
Proof.
  intros Hp stmt Hint Href.
  unfold form_parse in Hp.
  unfold updateInvoice, UpdateInvoice_safeParse. rewrite Hp.
  unfold bind, try_catch, sql_update_invoice, sql, bind_amount.
  fold stmt. rewrite Href, Hint.
  reflexivity.
Qed.

End ActionFacts.

Section ActionTheorems.
Context `{Platform}.

(** C3.  A form whose amount coerces to at most zero, or that fails the
    schema in any other way, is answered with the messages of its fields
    and a summary message by [createInvoice] and by [updateInvoice];
    the world is left as it was: no statement is sent and no row of
    [invoices] changes. *)
Theorem rejected_form_never_reaches_database
    (prevState : State) (id : string) (formData : FormData) (w : World) :
  (Number (FormData_get formData "amount") <=? 0)%float = true \/
  (exists error, form_parse formData = SafeParseError error) ->
  exists error,
    form_parse formData = SafeParseError error /\
    ((Number (FormData_get formData "amount") <=? 0)%float = true ->
     amount_errors (flatten_fieldErrors error) =
     Some ["Please enter an amount greater than $0."]) /\
    createInvoice prevState formData w =
    (Normal {| errors := Some (flatten_fieldErrors error);
               message := Some "Missing Fields. Failed to Create Invoice." |},
     w) /\
    updateInvoice id prevState formData w =
    (Normal {| errors := Some (flatten_fieldErrors error);
               message := Some "Missing Fields. Failed to Update Invoice." |},
     w).
Proof.
  intros [Hle | [error Herr]].
  - destruct (FormSchema_rejects_amount
                (FormData_get formData "customerId")
                (FormData_get formData "amount")
                (FormData_get formData "status") Hle) as (error & Herr & Hmsg).
    exists error. repeat split; trivial.
    + now apply createInvoice_rejected.
    + now apply updateInvoice_rejected.
  - exists error. repeat split; trivial.
    + intros Hle.
      destruct (FormSchema_rejects_amount
                  (FormData_get formData "customerId")
                  (FormData_get formData "amount")
                  (FormData_get formData "status") Hle)
        as (error' & Herr' & Hmsg).
      unfold form_parse in Herr. congruence.
    + now apply createInvoice_rejected.
    + now apply updateInvoice_rejected.
Qed.

(** X23.  Amounts whose cents come out whole.  For a form the schema
    accepts (a customer string, an amount that coerces to a number above
    zero, one of the two statuses) whose amount times 100, as the double
    product the code computes, is a whole number: that number is
    [round(amount * 100)]; when the endpoint takes the statement,
    [createInvoice] appends one row that holds it, with the form's
    customer and status, a fresh id and today's date in the form
    [YYYY-MM-DD], and [updateInvoice] writes it to the rows of the given
    id and to no other; both then redirect to the listing. *)
Theorem valid_form_stores_whole_cents
    (prevState : State) (id : string) (formData : FormData) (w : World)
    (c s : string) (cents : Z) :
  FormData_get formData "customerId" = JsString c ->
  (0 <? Number (FormData_get formData "amount"))%float = true ->
  FormData_get formData "status" = JsString s ->
  s = "pending" \/ s = "paid" ->
  int_of_number (Number (FormData_get formData "amount") * 100)%float
  = Some cents ->
  let cents_bound := (Number (FormData_get formData "amount") * 100)%float in
  let today := string_of_list_ascii (iso_date (clock w)) in
  Math_round cents_bound = Some cents /\
  (refuses w (INSERT_invoice c cents_bound s today) = false ->
   exists w',
     createInvoice prevState formData w =
     (Throw (NEXT_REDIRECT "/dashboard/invoices"), w') /\
     invoices w' =
     invoices w ++
       [{| inv_id := uuid_generate_v4 w (uuid_count w);
           inv_customer_id := c;
           inv_amount := cents;
           inv_status := s;
           inv_date := today |}]) /\
  (refuses w (UPDATE_invoice c cents_bound s id) = false ->
   exists w',
     updateInvoice id prevState formData w =
     (Throw (NEXT_REDIRECT "/dashboard/invoices"), w') /\
     invoices w' =
     map (fun r => if String.eqb (inv_id r) id
                   then set_invoice c cents s r else r)
         (invoices w)).
Proof.
  intros Hc Ha Hs Hstatus Hint cents_bound today.
  pose proof (FormSchema_accepts _ _ _ c s Hc Ha Hs Hstatus) as Hparse.
  split; [now apply int_of_number_round|]. split; intros Href.
  - eexists. split.
    + apply (createInvoice_accepted prevState formData _ cents w Hparse);
        assumption.
    + reflexivity.
  - eexists. split.
    + apply (updateInvoice_accepted id prevState formData _ cents w Hparse);
        assumption.
    + reflexivity.
Qed.

End ActionTheorems.

(** C3 at work: an amount of -3 (and a good customer and status). *)
Lemma rejected_form_witness :
  (@Number demo_platform
     (FormData_get (demo_form "c-1" "-3" "paid") "amount") <=? 0)%float = true /\
  exists error,
    @form_parse demo_platform (demo_form "c-1" "-3" "paid")
    = SafeParseError error /\
    @createInvoice demo_platform no_state (demo_form "c-1" "-3" "paid")
      demo_world =
    (Normal {| errors := Some (flatten_fieldErrors error);
               message := Some "Missing Fields. Failed to Create Invoice." |},
     demo_world) /\
    @updateInvoice demo_platform "i-3" no_state (demo_form "c-1" "-3" "paid")
      demo_world =
    (Normal {| errors := Some (flatten_fieldErrors error);
               message := Some "Missing Fields. Failed to Update Invoice." |},
     demo_world).
Proof.
  split; [vm_compute; reflexivity|].
  destruct (@rejected_form_never_reaches_database demo_platform no_state "i-3"
              (demo_form "c-1" "-3" "paid") demo_world)
    as (error & Hparse & _ & Hcreate & Hupdate).
  - left. vm_compute. reflexivity.
  - exists error. auto.
Defined.

(** X23 at work: 10.50 is 1050 cents. *)
Lemma valid_form_witness :
  exists w1 w2,
    @createInvoice demo_platform no_state (demo_form "c-1" "10.50" "pending")
      demo_world = (Throw (NEXT_REDIRECT "/dashboard/invoices"), w1) /\
    invoices w1 =
    demo_invoices ++ [demo_invoice "uuid-0" "c-1" 1050 "pending" "2024-05-07"] /\
    @updateInvoice demo_platform "i-3" no_state
      (demo_form "c-1" "10.50" "pending") demo_world
    = (Throw (NEXT_REDIRECT "/dashboard/invoices"), w2) /\
    nth_error (invoices w2) 2 =
    Some (demo_invoice "i-3" "c-1" 1050 "pending" "2022-10-29").
Proof.
  destruct (@valid_form_stores_whole_cents demo_platform no_state "i-3"
              (demo_form "c-1" "10.50" "pending") demo_world
              "c-1" "pending" 1050%Z)
    as (_ & Hcreate & Hupdate);
    try (vm_compute; reflexivity).
  - left. reflexivity.
  - destruct Hcreate as (w1 & Hc1 & Hi1); [reflexivity|].
    destruct Hupdate as (w2 & Hu2 & Hi2); [reflexivity|].
    exists w1, w2. rewrite Hi1, Hi2. repeat split; trivial.
Defined.

(** C1: the rounding is missing.  The comment above [amountInCents]
    gives the reason for cents, to be rid of floating-point errors, and
    the claim expects [round(amount * 100)] in the row; the code binds
    the product [amount * 100] as it is.  The amount 1.15 passes the
    schema and [round(1.15 * 100)] is 115, but the product lies below
    115 and is no whole number: the statement of either action fails on
    it, the action answers with its database-error message, the table is
    as it was, and no row holds 115 cents. *)
Theorem unrounded_amount_is_not_stored :
  @form_parse demo_platform (demo_form "c-1" "1.15" "pending") =
  SafeParseSuccess {| customerId := "c-1";
                      amount := parse_decimal "1.15";
                      status := "pending" |} /\
  Math_round (parse_decimal "1.15" * 100)%float = Some 115%Z /\
  int_of_number (parse_decimal "1.15" * 100)%float = None /\
  @createInvoice demo_platform no_state (demo_form "c-1" "1.15" "pending")
    demo_world =
  (Normal {| errors := None;
             message := Some "Database Error: Failed to Create Invoice." |},
   sent (INSERT_invoice "c-1" (parse_decimal "1.15" * 100)%float "pending"
           "2024-05-07") demo_world) /\
  @updateInvoice demo_platform "i-3" no_state
    (demo_form "c-1" "1.15" "pending") demo_world =
  (Normal {| errors := None;
             message := Some "Database Error: Failed to Update Invoice." |},
   sent (UPDATE_invoice "c-1" (parse_decimal "1.15" * 100)%float "pending"
           "i-3") demo_world) /\
  (exists bound,
     statements
       (snd (@createInvoice demo_platform no_state
               (demo_form "c-1" "1.15" "pending") demo_world))
     = [INSERT_invoice "c-1" bound "pending" "2024-05-07"] /\
     (bound <? 115)%float = true /\
     ~ In 115%Z
         (map inv_amount
            (invoices
               (snd (@createInvoice demo_platform no_state
                       (demo_form "c-1" "1.15" "pending") demo_world))))) /\
  (exists bound,
     statements
       (snd (@updateInvoice demo_platform "i-3" no_state
               (demo_form "c-1" "1.15" "pending") demo_world))
     = [UPDATE_invoice "c-1" bound "pending" "i-3"] /\
     (bound <? 115)%float = true /\
     ~ In 115%Z
         (map inv_amount
            (invoices
               (snd (@updateInvoice demo_platform "i-3" no_state
                       (demo_form "c-1" "1.15" "pending") demo_world))))).
Proof.
  split; [vm_compute; reflexivity|].
  split; [vm_compute; reflexivity|].
  split; [vm_compute; reflexivity|].
  split; [vm_compute; reflexivity|].
  split; [vm_compute; reflexivity|].
  split.
  - exists (parse_decimal "1.15" * 100)%float.
    split; [vm_compute; reflexivity|].
    split; [vm_compute; reflexivity|].
    vm_compute. intros Hin.
    repeat (destruct Hin as [Hin | Hin]; [discriminate|]). exact Hin.
  - exists (parse_decimal "1.15" * 100)%float.
    split; [vm_compute; reflexivity|].
    split; [vm_compute; reflexivity|].
    vm_compute. intros Hin.
    repeat (destruct Hin as [Hin | Hin]; [discriminate|]). exact Hin.
Qed.

Section MoreActionTheorems.
Context `{Platform}.

(** C8.  [deleteInvoice] always returns a message: it never throws and
    never redirects.  When the endpoint takes the statement, the rows of
    that id are gone and the others are kept, the invoices listing is
    dropped from the page cache, and the message confirms the deletion.
    When the statement fails, the message reports a database error, and
    neither the table nor the cache has changed. *)
Theorem deleteInvoice_reports_outcome (id : string) (w : World) :
  exists text w',
    deleteInvoice id w =
    (Normal {| errors := None; message := Some text |}, w') /\
    statements w' = statements w ++ [DELETE_invoice id] /\
    (refuses w (DELETE_invoice id) = false ->
     text = "Deleted Invoice" /\
     (forall r, In r (invoices w') <-> In r (invoices w) /\ inv_id r <> id) /\
     invoices w' =
     filter (fun r => negb (String.eqb (inv_id r) id)) (invoices w) /\
     revalidated w' = revalidated w ++ ["/dashboard/invoices"]) /\
    (refuses w (DELETE_invoice id) = true ->
     text = "Database Error: Failed to Delete Invoice." /\
     invoices w' = invoices w /\
     revalidated w' = revalidated w).
Proof.
  unfold deleteInvoice, try_catch, bind, sql_delete_invoice, sql.
  destruct (refuses w (DELETE_invoice id)) eqn:Href.
  - do 2 eexists. split; [reflexivity|]. split; [reflexivity|].
    split; [discriminate|]. intros _. repeat split.
  - do 2 eexists. split; [reflexivity|]. split; [reflexivity|].
    split; [|discriminate]. intros _. split; [reflexivity|].
    split; [|split; reflexivity].
    intros r. simpl. rewrite filter_In, negb_true_iff, String.eqb_neq.
    reflexivity.
Qed.

(** C5.  When the sign-in throws, [authenticate] returns
    "Invalid credentials." exactly for an authentication error of type
    [CredentialsSignin], returns one other message for every other type
    of authentication error, and throws again, unchanged, whatever is
    not an authentication error. *)
Theorem authenticate_maps_sign_in_failures
    (prevState : option string) (formData : FormData) (w w' : World)
    (error : Exception) :
  signIn "credentials" formData w = (Throw error, w') ->
  (authenticate prevState formData w =
   (Normal (Some "Invalid credentials."), w')
   <-> error = AuthError "CredentialsSignin") /\
  (forall type,
     error = AuthError type -> type <> "CredentialsSignin" ->
     authenticate prevState formData w =
     (Normal (Some "Something went wrong."), w')) /\
  ((forall type, error <> AuthError type) ->
   authenticate prevState formData w = (Throw error, w')).
Proof.
  intros Hsign. unfold authenticate, try_catch, bind. rewrite Hsign.
  repeat split.
  - destruct error as [m|m|m|type|url]; try discriminate.
    destruct (String.eqb type "CredentialsSignin") eqn:Htype.
    + apply String.eqb_eq in Htype. now subst.
    + discriminate.
  - intros ->. reflexivity.
  - intros type -> Hother. apply String.eqb_neq in Hother.
    now rewrite Hother.
  - intros Hnot. destruct error as [m|m|m|type|url]; try reflexivity.
    now destruct (Hnot type).
Qed.

End MoreActionTheorems.

(** C8 at work: one deletion that goes through, and one during an
    outage. *)
Lemma deleteInvoice_witness :
  (exists w',
     deleteInvoice "i-3" demo_world =
     (Normal {| errors := None; message := Some "Deleted Invoice" |}, w') /\
     map inv_id (invoices w') = ["i-1"; "i-2"; "i-4"; "i-5"; "i-6"; "i-7"; "i-8"] /\
     revalidated w' = ["/dashboard/invoices"]) /\
  (exists w',
     deleteInvoice "i-3" demo_outage =
     (Normal {| errors := None;
                message := Some "Database Error: Failed to Delete Invoice." |},
      w') /\
     invoices w' = demo_invoices /\
     revalidated w' = []).
Proof.
  split.
  - destruct (deleteInvoice_reports_outcome "i-3" demo_world)
      as (text & w' & Hrun & _ & Hok & _).
    destruct Hok as (-> & _ & Hrows & Hcache); [reflexivity|].
    exists w'. rewrite Hrows, Hcache. repeat split; trivial.
  - destruct (deleteInvoice_reports_outcome "i-3" demo_outage)
      as (text & w' & Hrun & _ & _ & Hfail).
    destruct Hfail as (-> & Hrows & Hcache); [reflexivity|].
    exists w'. rewrite Hrows, Hcache. repeat split; trivial.
Defined.

(** C5 at work: the three kinds of failure. *)
Lemma authenticate_witness :
  @authenticate demo_platform None [("outcome", EntryString "CredentialsSignin")]
    demo_world = (Normal (Some "Invalid credentials."), demo_world) /\
  @authenticate demo_platform None [("outcome", EntryString "CallbackRouteError")]
    demo_world = (Normal (Some "Something went wrong."), demo_world) /\
  @authenticate demo_platform None [("outcome", EntryString "redirect")]
    demo_world = (Throw (NEXT_REDIRECT "/dashboard"), demo_world).
Proof.
  split; [|split].
  - apply (@authenticate_maps_sign_in_failures demo_platform None
             [("outcome", EntryString "CredentialsSignin")]
             demo_world demo_world (AuthError "CredentialsSignin"));
      reflexivity.
  - apply (@authenticate_maps_sign_in_failures demo_platform None
             [("outcome", EntryString "CallbackRouteError")]
             demo_world demo_world (AuthError "CallbackRouteError")
             eq_refl) with (type := "CallbackRouteError");
      [reflexivity | discriminate].
  - apply (@authenticate_maps_sign_in_failures demo_platform None
             [("outcome", EntryString "redirect")]
             demo_world demo_world (NEXT_REDIRECT "/dashboard") eq_refl).
    discriminate.
Defined.

(* ================================================================== *)
(** * The query layer: what the code does *)

Lemma where_ilike_plain (l : Locale) (query : string)
    (r : InvoiceRow * CustomerRow) :
  plain_query query ->
  where_ilike l ("%" ++ query ++ "%")%string r = matches_query l query r.
Proof.
  intros Hq. destruct r as [i c]. unfold where_ilike, matches_query.
  now rewrite !(ilike_plain_contains _ _ _ Hq).
Qed.

Lemma filter_where_ilike_plain (l : Locale) (query : string) rows :
  plain_query query ->
  filter (where_ilike l ("%" ++ query ++ "%")%string) rows =
  filter (matches_query l query) rows.
Proof.
  intros Hq. apply filter_ext. intros r. now apply where_ilike_plain.
Qed.

Lemma filter_none {A} (p : A -> bool) (l : list A) :
  (forall x, In x l -> p x = false) -> filter p l = [].
Proof.
  induction l as [|x l IH]; intros Hl; simpl; [reflexivity|].
  rewrite (Hl x) by now left. apply IH. intros y Hy. apply Hl. now right.
Qed.

Lemma filter_first {A} (p : A -> bool) (before : list A) (u : A)
    (after : list A) :
  (forall x, In x before -> p x = false) -> p u = true ->
  filter p (before ++ u :: after) = u :: filter p after.
Proof.
  intros Hb Hu. rewrite filter_app, (filter_none _ _ Hb). simpl.
  now rewrite Hu.
Qed.

Lemma filter_cases {A} (p : A -> bool) (l : list A) :
  (forall x, In x l -> p x = false) \/
  exists before u after,
    l = before ++ u :: after /\ p u = true /\
    (forall x, In x before -> p x = false).
Proof.
  induction l as [|x l IH].
  - left. intros x [].
  - destruct (p x) eqn:Hx.
    + right. exists [], x, l. repeat split; trivial. intros y [].
    + destruct IH as [Hl | (before & u & after & -> & Hu & Hb)].
      * left. intros y [<- | Hy]; auto.
      * right. exists (x :: before), u, after. repeat split; trivial.
        intros y [<- | Hy]; auto.
Qed.

Lemma In_firstn {A} (n : nat) (l : list A) (x : A) :
  In x (firstn n l) -> In x l.
Proof.
  intros Hx. rewrite <- (firstn_skipn n l). apply in_or_app. now left.
Qed.

Lemma In_skipn {A} (n : nat) (l : list A) (x : A) :
  In x (skipn n l) -> In x l.
Proof.
  intros Hx. rewrite <- (firstn_skipn n l). apply in_or_app. now right.
Qed.

Lemma Sorted_skipn {A} (R : A -> A -> Prop) (n : nat) (l : list A) :
  Sorted R l -> Sorted R (skipn n l).
Proof.
  revert l. induction n as [|n IH]; intros l Hl; [exact Hl|].
  destruct l as [|x l]; [constructor|].
  simpl. apply IH. now inversion Hl.
Qed.

Lemma Sorted_firstn {A} (R : A -> A -> Prop) (n : nat) (l : list A) :
  Sorted R l -> Sorted R (firstn n l).
Proof.
  revert l. induction n as [|n IH]; intros l Hl; simpl; [constructor|].
  destruct l as [|x l]; [constructor|].
  inversion Hl as [|? ? Hs Hhd]; subst.
  constructor; [apply IH, Hs|].
  destruct l as [|y l]; destruct n; simpl; try constructor.
  now inversion Hhd.
Qed.

(** The ceiling of [n / 6] is the least [p] with [n <= 6 p]. *)
Lemma Math_ceil_sixths (n : Z) :
  let p := Math_ceil (inject_Z n / inject_Z 6)%Q in
  (6 * (p - 1) < n <= 6 * p)%Z.
Proof.
  intros p. unfold Math_ceil in p.
  pose proof (Qle_ceiling (inject_Z n / inject_Z 6)%Q) as Hup.
  pose proof (Qceiling_lt (inject_Z n / inject_Z 6)%Q) as Hlow.
  fold p in Hup, Hlow.
  unfold Qle, Qlt, Qdiv, Qmult, Qinv, inject_Z in Hup, Hlow.
  simpl in Hup, Hlow. lia.
Qed.

Section DataTheorems.

(** C2, as the code has it.  For a query without the characters [%],
    [_] and backslash, which [ILIKE] does not read literally,
    [fetchInvoicesPages] returns the ceiling of [matchCount / 6], where
    [matchCount] counts the invoices, joined with their customer, whose
    customer name or e-mail or whose amount, date or status contains the
    query, letter case ignored as the locale of the database folds it,
    whatever that locale is; 13 matches make 3 pages and none makes 0. *)
Theorem fetchInvoicesPages_counts_pages (query : string) (w : World) :
  plain_query query ->
  refuses w (SELECT_count_filtered ("%" ++ query ++ "%")%string) = false ->
  exists totalPages w',
    fetchInvoicesPages query w = (Normal totalPages, w') /\
    totalPages = Math_ceil (inject_Z (matchCount query w) / inject_Z 6)%Q /\
    (6 * (totalPages - 1) < matchCount query w <= 6 * totalPages)%Z /\
    (matchCount query w = 13%Z -> totalPages = 3%Z) /\
    (matchCount query w = 0%Z -> totalPages = 0%Z).
Proof.
  intros Hq Href.
  unfold fetchInvoicesPages, try_catch, bind, sql_count_filtered, sql.
  rewrite Href. cbn [nth_error property ret count Number_cell nullish].
  cbn [locale with_statements].
  rewrite (filter_where_ilike_plain _ _ _ Hq).
  change (invoices_join_customers (with_statements _ w))
    with (invoices_join_customers w).
  fold (matchCount query w).
  do 2 eexists. split; [reflexivity|]. split; [reflexivity|].
  pose proof (Math_ceil_sixths (matchCount query w)) as Hp.
  cbv zeta in Hp. unfold ITEMS_PER_PAGE. repeat split; lia.
Qed.

(** C7, as the code has it.  For a query without the characters [%],
    [_] and backslash and a page number from 1 on, [fetchFilteredInvoices]
    returns at most 6 invoices: of the matching rows in descending order
    of date ([all]) it leaves out the first [(page - 1) * 6] (6 on page
    2) and keeps the next 6 ([page]); every row it returns matches, and
    they come in descending order of date.  A row matches when one of its
    five fields contains the query, letter case ignored as the locale of
    the database folds it, whatever that locale is. *)
Theorem fetchFilteredInvoices_pages_matches
    (query : string) (currentPage : Z) (w : World) :
  plain_query query ->
  (1 <= currentPage)%Z ->
  refuses w (SELECT_filtered_invoices ("%" ++ query ++ "%")%string 6
               ((currentPage - 1) * 6)) = false ->
  exists (all page : list (InvoiceRow * CustomerRow)) w',
    fetchFilteredInvoices query currentPage w =
    (Normal (map select_invoices_table page), w') /\
    (List.length page <= 6)%nat /\
    Permutation all
      (filter (matches_query (locale w) query)
              (invoices_join_customers w)) /\
    Sorted date_ge all /\
    page = firstn 6 (skipn (Z.to_nat ((currentPage - 1) * 6)) all) /\
    (currentPage = 2%Z -> page = firstn 6 (skipn 6 all)) /\
    Forall (fun r => matches_query (locale w) query r = true) page /\
    Sorted date_ge page.
Proof.
  intros Hq Hpage Href.
  unfold fetchFilteredInvoices, try_catch, bind,
    sql_select_filtered_invoices, sql, ITEMS_PER_PAGE.
  rewrite Href.
  assert (Hoff : ((6 <? 0) || ((currentPage - 1) * 6 <? 0))%Z = false).
  { apply orb_false_iff. split; apply Z.ltb_ge; lia. }
  rewrite Hoff. cbn [locale with_statements].
  rewrite (filter_where_ilike_plain _ _ _ Hq).
  set (all := order_by_date_desc
                (filter (matches_query (locale w) query)
                        (invoices_join_customers w))).
  exists all, (firstn 6 (skipn (Z.to_nat ((currentPage - 1) * 6)) all)).
  eexists. split; [reflexivity|].
  assert (Hperm : Permutation all
            (filter (matches_query (locale w) query)
                    (invoices_join_customers w)))
    by apply order_by_date_desc_perm.
  repeat split.
  - apply firstn_le_length.
  - exact Hperm.
  - apply order_by_date_desc_sorted.
  - intros ->. reflexivity.
  - apply Forall_forall. intros r Hr.
    apply In_firstn, In_skipn in Hr.
    apply (Permutation_in _ Hperm), filter_In in Hr. tauto.
  - apply Sorted_firstn, Sorted_skipn, order_by_date_desc_sorted.
Qed.

(** C6.  When the endpoint answers, [fetchInvoiceById] returns
    [undefined], and does not throw, for an id that no row of
    [invoices] has; for an id that a row has it returns that row's id,
    customer and status with, as amount, the stored cents divided by
    100. *)
Theorem fetchInvoiceById_undefined_or_dollars (id : string) (w : World) :
  refuses w (SELECT_invoice id) = false ->
  ((forall r, In r (invoices w) -> inv_id r <> id) ->
   exists w', fetchInvoiceById id w = (Normal None, w')) /\
  (forall before r after,
     invoices w = before ++ r :: after ->
     (forall x, In x before -> inv_id x <> id) ->
     inv_id r = id ->
     exists w',
       fetchInvoiceById id w =
       (Normal (Some {| form_id := inv_id r;
                        form_customer_id := inv_customer_id r;
                        form_amount :=
                          (number_of_int (inv_amount r) / 100)%float;
                        form_status := inv_status r |}),
        w')).
Proof.
  intros Href.
  unfold fetchInvoiceById, try_catch, bind, sql_select_invoice, sql.
  rewrite Href. split.
  - intros Hnone. rewrite filter_none.
    + eexists. reflexivity.
    + intros x Hx. apply String.eqb_neq. auto.
  - intros before r after Hrows Hbefore Hr.
    cbn [invoices with_statements]. rewrite Hrows, filter_first.
    + eexists. reflexivity.
    + intros x Hx. apply String.eqb_neq. auto.
    + now apply String.eqb_eq.
Qed.

End DataTheorems.

(** C2 fails as stated.  No field of the eight invoices contains an
    underscore, so the claim counts no match and expects 0 pages; but [_]
    stands for any one character, every row matches, and the result is 2
    pages. *)
Lemma wildcard_query_counts_every_invoice :
  exists w',
    fetchInvoicesPages "_" demo_world = (Normal 2%Z, w') /\
    matchCount "_" demo_world = 0%Z /\
    Math_ceil (inject_Z (matchCount "_" demo_world) / inject_Z 6)%Q = 0%Z.
Proof.
  eexists. split; [vm_compute; reflexivity|]. split; vm_compute; reflexivity.
Qed.

(** C2 at work: four invoices of Lee Robinson, one page; and in the
    Latin-1 locale the query in lower case finds the invoice of the
    customer whose name starts with the accented capital. *)
Lemma fetchInvoicesPages_witness :
  plain_query "lee" /\
  (exists w',
     fetchInvoicesPages "lee" demo_world = (Normal 1%Z, w') /\
     matchCount "lee" demo_world = 4%Z) /\
  plain_query angel /\
  (exists w',
     fetchInvoicesPages angel demo_world_latin1 = (Normal 1%Z, w') /\
     matchCount angel demo_world_latin1 = 1%Z).
Proof.
  split; [reflexivity|].
  destruct (fetchInvoicesPages_counts_pages "lee" demo_world)
    as (p & w' & Hrun & Hp & _); [reflexivity | reflexivity |].
  split.
  { exists w'. split; [|reflexivity]. rewrite Hrun, Hp. reflexivity. }
  split; [reflexivity|].
  destruct (fetchInvoicesPages_counts_pages angel demo_world_latin1)
    as (q & w'' & Hrun' & Hq & _); [reflexivity | reflexivity |].
  exists w''. split; [|reflexivity]. rewrite Hrun', Hq. reflexivity.
Defined.

(** C7 fails as stated.  The query [_] on page 1 lists six invoices
    although no row contains an underscore; and page 0 asks for the offset
    -6, which the endpoint rejects, so the call throws and lists
    nothing. *)
Lemma wildcard_query_lists_unmatched_invoices :
  (exists rows w',
     fetchFilteredInvoices "_" 1 demo_world = (Normal rows, w') /\
     List.length rows = 6%nat /\
     filter (matches_query C_locale "_")
            (invoices_join_customers demo_world) = []) /\
  (exists w',
     fetchFilteredInvoices EmptyString 0 demo_world =
     (Throw (Error "Failed to fetch invoices."), w')).
Proof.
  split.
  - do 2 eexists. split; [vm_compute; reflexivity|].
    split; vm_compute; reflexivity.
  - eexists. vm_compute. reflexivity.
Qed.

(** C7 at work: page 2 of all eight invoices holds the two oldest; and
    in the Latin-1 locale the query in lower case lists the invoice of
    the customer whose name starts with the accented capital. *)
Lemma fetchFilteredInvoices_witness :
  plain_query EmptyString /\ (1 <= 2)%Z /\
  (exists rows w',
     fetchFilteredInvoices EmptyString 2 demo_world = (Normal rows, w') /\
     map it_id rows = ["i-2"; "i-3"]) /\
  plain_query angel /\
  (exists rows w',
     fetchFilteredInvoices angel 1 demo_world_latin1 = (Normal rows, w') /\
     map it_id rows = ["i-9"]).
Proof.
  split; [reflexivity|]. split; [lia|]. split; [|split; [reflexivity|]].
  - destruct (fetchFilteredInvoices_pages_matches EmptyString 2 demo_world)
      as (all & page & w' & Hrun & _); [reflexivity | lia | reflexivity |].
    remember (map select_invoices_table page) as rows eqn:Hrows.
    exists rows, w'. split; [exact Hrun|].
    clear Hrows. vm_compute in Hrun. injection Hrun as <- _.
    reflexivity.
  - destruct (fetchFilteredInvoices_pages_matches angel 1 demo_world_latin1)
      as (all & page & w' & Hrun & _); [reflexivity | lia | reflexivity |].
    remember (map select_invoices_table page) as rows eqn:Hrows.
    exists rows, w'. split; [exact Hrun|].
    clear Hrows. vm_compute in Hrun. injection Hrun as <- _.
    reflexivity.
Defined.

(** C6 at work: an id that is not there, and one that is. *)
Lemma fetchInvoiceById_witness :
  (exists w', fetchInvoiceById "i-33" demo_world = (Normal None, w')) /\
  (exists w',
     fetchInvoiceById "i-3" demo_world =
     (Normal (Some {| form_id := "i-3";
                      form_customer_id := "c-1";
                      form_amount := (number_of_int 3040 / 100)%float;
                      form_status := "paid" |}),
      w')).
Proof.
  split.
  - apply (fetchInvoiceById_undefined_or_dollars "i-33" demo_world eq_refl).
    simpl. intros r Hr.
    repeat (destruct Hr as [<- | Hr]; [discriminate|]). destruct Hr.
  - apply (proj2 (fetchInvoiceById_undefined_or_dollars "i-3" demo_world
                    eq_refl)
             (firstn 2 demo_invoices)
             (demo_invoice "i-3" "c-1" 3040 "paid" "2022-10-29")
             (skipn 3 demo_invoices)).
    + reflexivity.
    + simpl. intros x Hx.
      repeat (destruct Hx as [<- | Hx]; [discriminate|]). destruct Hx.
    + reflexivity.
Defined.

Section CardTheorems.
Context `{Utils}.

(** C9.  With no invoice in the table both sums are [NULL], and
    [fetchCardData] still returns: the two totals are the currency form
    of 0, the number of invoices is 0 and the number of customers is the
    size of the customers table. *)
Theorem fetchCardData_without_invoices (w : World) :
  invoices w = [] ->
  refuses w SELECT_count_invoices = false ->
  refuses w SELECT_count_customers = false ->
  refuses w SELECT_status_sums = false ->
  SUM (amount_when "paid") (invoices w) = None /\
  SUM (amount_when "pending") (invoices w) = None /\
  exists w',
    fetchCardData w =
    (Normal {| numberOfCustomers := Z.of_nat (List.length (customers w));
               numberOfInvoices := 0;
               totalPaidInvoices := formatCurrency 0;
               totalPendingInvoices := formatCurrency 0 |},
     w').
Proof.
  intros Hempty H1 H2 H3.
  rewrite Hempty. split; [reflexivity|]. split; [reflexivity|].
  unfold fetchCardData, try_catch, bind, Promise_all3,
    sql_count_invoices, sql_count_customers, sql_status_sums, sql.
  rewrite H1. cbn [refuses with_statements].
  rewrite H2. cbn [refuses with_statements].
  rewrite H3. cbn [invoices customers with_statements].
  rewrite Hempty.
  eexists. reflexivity.
Qed.

End CardTheorems.

(** C9 at work: the dashboard before the first invoice. *)
Lemma fetchCardData_witness :
  invoices demo_fresh = [] /\
  exists w',
    @fetchCardData demo_utils demo_fresh =
    (Normal {| numberOfCustomers := 2;
               numberOfInvoices := 0;
               totalPaidInvoices := "$0.00";
               totalPendingInvoices := "$0.00" |},
     w').
Proof.
  split; [reflexivity|].
  destruct (@fetchCardData_without_invoices demo_utils demo_fresh)
    as (_ & _ & w' & Hrun); try reflexivity.
  exists w'. exact Hrun.
Defined.

(* ================================================================== *)
(** * The sign-in adapter: what the code does *)

Section AuthTheorems.
Context `{Platform}.

Lemma credentials_rejected credentials :
  (forall email password, ~ well_formed credentials email password) ->
  exists error, credentials_safeParse credentials = SafeParseError error.
Proof.
  intros Hbad.
  destruct (credentials_safeParse credentials) as [[email password] | error]
    eqn:Hparse.
  - apply credentials_accepted_inv in Hparse. now destruct (Hbad _ _ Hparse).
  - now exists error.
Qed.

(** What [authorize] does once the schema has accepted the input. *)
Lemma authorize_well_formed credentials email password w :
  well_formed credentials email password ->
  authorize credentials w =
  let w1 := sent (SELECT_user email) w in
  if refuses w (SELECT_user email)
  then (Throw (Error "Failed to fetch user."),
        with_console (console w ++ ["Failed to fetch user:"]) w1)
  else
    match filter (fun u => String.eqb (user_email u) email) (users w) with
    | [] => (Normal None, w1)
    | user :: _ =>
        if bcrypt_compare password (user_password user)
        then (Normal (Some user), w1)
        else (Normal None,
              with_console (console w ++ ["Invalid credentials"]) w1)
    end.
Proof.
  intros Hwf. apply credentials_accepts in Hwf.
  unfold authorize. rewrite Hwf.
  unfold getUser, sql_select_user, sql, sent, try_catch, bind.
  destruct (refuses w (SELECT_user email)); [reflexivity|].
  cbn [users with_statements].
  destruct (filter (fun u => String.eqb (user_email u) email) (users w))
    as [|user rest]; [reflexivity|].
  unfold ret. cbn [nth_error].
  destruct (bcrypt_compare password (user_password user)); reflexivity.
Qed.

(** C4.  With the user lookup answering: input that is not of the
    required shape (an e-mail address and a password of at least 6
    characters) gives [null]; an e-mail address that no user row has
    gives [null]; otherwise the result is the user row when the password
    matches its stored hash under the salted comparison, and [null] when
    it does not. *)
Theorem authorize_checks_shape_user_and_password
    (credentials : Credentials) (w : World) :
  (forall email, refuses w (SELECT_user email) = false) ->
  ((forall email password, ~ well_formed credentials email password) ->
   fst (authorize credentials w) = Normal None) /\
  (forall email password,
     well_formed credentials email password ->
     ((forall u, In u (users w) -> user_email u <> email) ->
      fst (authorize credentials w) = Normal None) /\
     (forall before user after,
        users w = before ++ user :: after ->
        (forall u, In u before -> user_email u <> email) ->
        user_email user = email ->
        fst (authorize credentials w) =
        Normal (if bcrypt_compare password (user_password user)
                then Some user else None))).
Proof.
  intros Href. split.
  - intros Hbad. destruct (credentials_rejected _ Hbad) as [error Herr].
    unfold authorize. rewrite Herr. reflexivity.
  - intros email password Hwf.
    rewrite (authorize_well_formed _ _ _ _ Hwf), Href. cbv zeta. split.
    + intros Hnone. rewrite filter_none; [reflexivity|].
      intros u Hu. apply String.eqb_neq. auto.
    + intros before user after Husers Hbefore Huser.
      rewrite Husers, filter_first.
      * destruct (bcrypt_compare password (user_password user));
          reflexivity.
      * intros u Hu. apply String.eqb_neq. auto.
      * now apply String.eqb_eq.
Qed.

(** C10.  For input of the required shape, a failing user lookup makes
    [authorize] throw "Failed to fetch user."; it does not return
    [null].  So a [null] from [authorize] always stands for credentials
    turned down, with the lookup answered whenever it was made: the
    shape was wrong, or no user row has the e-mail address, or the
    password does not match the stored hash. *)
Theorem authorize_null_means_rejected
    (credentials : Credentials) (w : World) :
  (forall email password,
     well_formed credentials email password ->
     refuses w (SELECT_user email) = true ->
     fst (authorize credentials w) = Throw (Error "Failed to fetch user.")) /\
  (fst (authorize credentials w) = Normal None ->
   (forall email password, ~ well_formed credentials email password) \/
   exists email password,
     well_formed credentials email password /\
     refuses w (SELECT_user email) = false /\
     ((forall u, In u (users w) -> user_email u <> email) \/
      exists before user after,
        users w = before ++ user :: after /\
        (forall u, In u before -> user_email u <> email) /\
        user_email user = email /\
        bcrypt_compare password (user_password user) = false)).
Proof.
  split.
  - intros email password Hwf Href.
    now rewrite (authorize_well_formed _ _ _ _ Hwf), Href.
  - intros Hnull.
    destruct (credentials_safeParse credentials) as [[email password] | error]
      eqn:Hparse.
    + right. exists email, password.
      apply credentials_accepted_inv in Hparse. split; [assumption|].
      rewrite (authorize_well_formed _ _ _ _ Hparse) in Hnull.
      cbv zeta in Hnull.
      destruct (refuses w (SELECT_user email)); [discriminate|].
      split; [reflexivity|].
      destruct (filter_cases (fun u => String.eqb (user_email u) email)
                  (users w))
        as [Hnone | (before & user & after & Husers & Huser & Hbefore)].
      * left. intros u Hu. apply String.eqb_neq. auto.
      * right. exists before, user, after.
        rewrite Husers, (filter_first _ _ _ _ Hbefore Huser) in Hnull.
        repeat split; trivial.
        -- intros u Hu. apply String.eqb_neq. auto.
        -- now apply String.eqb_eq.
        -- destruct (bcrypt_compare password (user_password user));
             [discriminate | reflexivity].
    + left. intros email password Hwf.
      apply credentials_accepts in Hwf. congruence.
Qed.

End AuthTheorems.

(** C4 at work: a short password, an unknown address, the right
    password and a wrong one. *)
Lemma authorize_witness :
  fst (@authorize demo_platform (demo_credentials "user@nextmail.com" "12345")
         demo_world) = Normal None /\
  fst (@authorize demo_platform
         (demo_credentials "nobody@nextmail.com" "123456") demo_world)
  = Normal None /\
  fst (@authorize demo_platform
         (demo_credentials "user@nextmail.com" "123456") demo_world)
  = Normal (Some {| user_id := "u-1"; user_email := "user@nextmail.com";
                    user_password := "hashed:123456" |}) /\
  fst (@authorize demo_platform
         (demo_credentials "user@nextmail.com" "1234567") demo_world)
  = Normal None.
Proof.
  assert (Hdb : forall email, refuses demo_world (SELECT_user email) = false)
    by reflexivity.
  split; [|split; [|split]].
  - apply (@authorize_checks_shape_user_and_password demo_platform _ _ Hdb).
    intros email password (_ & _ & Hp & Hlen).
    injection Hp as <-. simpl in Hlen. lia.
  - destruct (proj2 (@authorize_checks_shape_user_and_password demo_platform
                       (demo_credentials "nobody@nextmail.com" "123456")
                       _ Hdb) "nobody@nextmail.com" "123456")
      as [Hnone _].
    + repeat split; simpl; lia.
    + apply Hnone. simpl. intros u [<- | []]. discriminate.
  - destruct (proj2 (@authorize_checks_shape_user_and_password demo_platform
                       (demo_credentials "user@nextmail.com" "123456")
                       _ Hdb) "user@nextmail.com" "123456")
      as [_ Hfound].
    + repeat split; simpl; lia.
    + apply (Hfound [] {| user_id := "u-1"; user_email := "user@nextmail.com";
                          user_password := "hashed:123456" |} []);
        [reflexivity | intros u [] | reflexivity].
  - destruct (proj2 (@authorize_checks_shape_user_and_password demo_platform
                       (demo_credentials "user@nextmail.com" "1234567")
                       _ Hdb) "user@nextmail.com" "1234567")
      as [_ Hfound].
    + repeat split; simpl; lia.
    + apply (Hfound [] {| user_id := "u-1"; user_email := "user@nextmail.com";
                          user_password := "hashed:123456" |} []);
        [reflexivity | intros u [] | reflexivity].
Defined.

(** C10 at work: good credentials during an outage. *)
Lemma authorize_outage_witness :
  fst (@authorize demo_platform
         (demo_credentials "user@nextmail.com" "123456") demo_outage)
  = Throw (Error "Failed to fetch user.").
Proof.
  apply (proj1 (@authorize_null_means_rejected demo_platform
                  (demo_credentials "user@nextmail.com" "123456") demo_outage)
           "user@nextmail.com" "123456").
  - repeat split; simpl; lia.
  - reflexivity.
Defined.
(* ================================================================== *)
(** * More about the mutation layer *)

Section ActionOutcomes.
Context `{Platform}.

(** X1.  For a form the schema accepts, [createInvoice] sends exactly one
    statement, the insertion, and ends in one of two ways.  Either it
    throws the redirect to the listing, after one more row is in the table
    and the listing has been dropped from the page cache; or it returns
    the database error message, with the table and the cache as they were.
    When the endpoint fails the statement it is the second. *)
Theorem createInvoice_redirects_or_reports
    (prevState : State) (formData : FormData) (data : InvoiceFields)
    (w : World) :
  form_parse formData = SafeParseSuccess data ->
  let stmt := INSERT_invoice (customerId data) (amount data * 100)%float
                (status data) (string_of_list_ascii (iso_date (clock w))) in
  exists outcome w',
    createInvoice prevState formData w = (outcome, w') /\
    statements w' = statements w ++ [stmt] /\
    customers w' = customers w /\
    ((outcome = Throw (NEXT_REDIRECT "/dashboard/invoices") /\
      refuses w stmt = false /\
      List.length (invoices w') = S (List.length (invoices w)) /\
      revalidated w' = revalidated w ++ ["/dashboard/invoices"])
     \/
     (outcome = Normal {| errors := None;
                          message :=
                            Some "Database Error: Failed to Create Invoice." |} /\
      invoices w' = invoices w /\
      revalidated w' = revalidated w)) /\
    (refuses w stmt = true ->
     outcome = Normal {| errors := None;
                         message :=
                           Some "Database Error: Failed to Create Invoice." |}).
Proof.
  intros Hp stmt. unfold form_parse in Hp.
  unfold createInvoice, CreateInvoice_safeParse. rewrite Hp.
  unfold bind, try_catch, Date_now, sql_insert_invoice, sql, bind_amount.
  rewrite toISOString_split_date. fold stmt.
  destruct (refuses w stmt) eqn:Href.
  - do 2 eexists. split; [reflexivity|]. repeat split. right. repeat split.
  - destruct (int_of_number (amount data * 100)%float) as [cents|] eqn:Hint.
    + do 2 eexists. split; [reflexivity|]. repeat split; try discriminate.
      left. repeat split. cbn [invoices with_revalidated with_uuid_count with_invoices].
      rewrite length_app. simpl. lia.
    + do 2 eexists. split; [reflexivity|]. repeat split; try discriminate.
      right. repeat split.
Qed.

(** X2.  For a form the schema accepts, [updateInvoice] sends exactly one
    statement, the update, and ends in one of two ways: the redirect to
    the listing with the listing dropped from the page cache, or the
    database error message with the table and the cache as they were.
    Either way the table keeps its rows in number and order, each with its
    id and its date, and a row of another id keeps everything. *)
Theorem updateInvoice_redirects_or_reports
    (id : string) (prevState : State) (formData : FormData)
    (data : InvoiceFields) (w : World) :
  form_parse formData = SafeParseSuccess data ->
  let stmt := UPDATE_invoice (customerId data) (amount data * 100)%float
                (status data) id in
  exists outcome w',
    updateInvoice id prevState formData w = (outcome, w') /\
    statements w' = statements w ++ [stmt] /\
    ((outcome = Throw (NEXT_REDIRECT "/dashboard/invoices") /\
      refuses w stmt = false /\
      revalidated w' = revalidated w ++ ["/dashboard/invoices"])
     \/
     (outcome = Normal {| errors := None;
                          message :=
                            Some "Database Error: Failed to Update Invoice." |} /\
      invoices w' = invoices w /\
      revalidated w' = revalidated w)) /\
    (refuses w stmt = true ->
     outcome = Normal {| errors := None;
                         message :=
                           Some "Database Error: Failed to Update Invoice." |}) /\
    map inv_id (invoices w') = map inv_id (invoices w) /\
    map inv_date (invoices w') = map inv_date (invoices w) /\
    (forall n r, nth_error (invoices w) n = Some r -> inv_id r <> id ->
                 nth_error (invoices w') n = Some r) /\
    ((forall r, In r (invoices w) -> inv_id r <> id) ->
     invoices w' = invoices w).
Proof.
  intros Hp stmt. unfold form_parse in Hp.
  unfold updateInvoice, UpdateInvoice_safeParse. rewrite Hp.
  unfold bind, try_catch, sql_update_invoice, sql, bind_amount.
  fold stmt.
  destruct (refuses w stmt) eqn:Href.
  - do 2 eexists. split; [reflexivity|].
    repeat split; auto; try (right; repeat split).
  - destruct (int_of_number (amount data * 100)%float) as [cents|] eqn:Hint.
    + do 2 eexists. split; [reflexivity|].
      cbn [invoices with_revalidated with_invoices with_statements].
      repeat split; try discriminate.
      * left. repeat split.
      * rewrite map_map. apply map_ext. intros r.
        now destruct (String.eqb (inv_id r) id).
      * rewrite map_map. apply map_ext. intros r.
        now destruct (String.eqb (inv_id r) id).
      * intros n r Hn Hr. rewrite nth_error_map, Hn. simpl.
        apply String.eqb_neq in Hr. now rewrite Hr.
      * intros Hnone. rewrite <- (map_id (invoices w)) at 2.
        apply map_ext_in. intros r Hr.
        apply Hnone, String.eqb_neq in Hr. now rewrite Hr.
    + do 2 eexists. split; [reflexivity|].
      repeat split; auto; try discriminate; try (right; repeat split).
Qed.

End ActionOutcomes.

(** X1 at work: the same form with the endpoint up and down. *)
Lemma createInvoice_outcome_witness :
  (exists w',
     @createInvoice demo_platform no_state (demo_form "c-1" "10.50" "pending")
       demo_world = (Throw (NEXT_REDIRECT "/dashboard/invoices"), w') /\
     revalidated w' = ["/dashboard/invoices"]) /\
  (exists w',
     @createInvoice demo_platform no_state (demo_form "c-1" "10.50" "pending")
       demo_outage =
     (Normal {| errors := None;
                message := Some "Database Error: Failed to Create Invoice." |},
      w') /\
     invoices w' = demo_invoices /\ revalidated w' = []).
Proof.
  split.
  - destruct (@createInvoice_redirects_or_reports demo_platform no_state
                (demo_form "c-1" "10.50" "pending")
                {| customerId := "c-1"; amount := parse_decimal "10.50";
                   status := "pending" |} demo_world)
      as (outcome & w' & Hrun & _ & _ & Hcases & _); [vm_compute; reflexivity|].
    exists w'.
    destruct Hcases as [(-> & _ & _ & Hcache) | (-> & _ & _)].
    + split; [exact Hrun | exact Hcache].
    + vm_compute in Hrun. discriminate.
  - destruct (@createInvoice_redirects_or_reports demo_platform no_state
                (demo_form "c-1" "10.50" "pending")
                {| customerId := "c-1"; amount := parse_decimal "10.50";
                   status := "pending" |} demo_outage)
      as (outcome & w' & Hrun & _ & _ & Hcases & Hdown);
      [vm_compute; reflexivity|].
    exists w'. rewrite (Hdown eq_refl) in *.
    destruct Hcases as [(Hno & _) | (_ & Hrows & Hcache)]; [discriminate|].
    repeat split; assumption.
Defined.

(** X2 at work: changing invoice [i-3], and an id that no row has. *)
Lemma updateInvoice_outcome_witness :
  (exists w',
     @updateInvoice demo_platform "i-3" no_state
       (demo_form "c-2" "7" "paid") demo_world =
     (Throw (NEXT_REDIRECT "/dashboard/invoices"), w') /\
     map inv_id (invoices w') = map inv_id demo_invoices /\
     nth_error (invoices w') 0 = nth_error demo_invoices 0) /\
  (exists outcome w',
     @updateInvoice demo_platform "i-33" no_state
       (demo_form "c-2" "7" "paid") demo_world = (outcome, w') /\
     invoices w' = demo_invoices).
Proof.
  split.
  - destruct (@updateInvoice_redirects_or_reports demo_platform "i-3" no_state
                (demo_form "c-2" "7" "paid")
                {| customerId := "c-2"; amount := parse_decimal "7";
                   status := "paid" |} demo_world)
      as (outcome & w' & Hrun & _ & Hcases & _ & Hids & _ & Hother & _);
      [vm_compute; reflexivity|].
    exists w'.
    destruct Hcases as [(-> & _) | (-> & _)].
    + repeat split; [exact Hrun | exact Hids |].
      apply (Hother 0%nat (demo_invoice "i-1" "c-1" 15795 "pending" "2022-12-06"));
        [reflexivity | discriminate].
    + vm_compute in Hrun. discriminate.
  - destruct (@updateInvoice_redirects_or_reports demo_platform "i-33" no_state
                (demo_form "c-2" "7" "paid")
                {| customerId := "c-2"; amount := parse_decimal "7";
                   status := "paid" |} demo_world)
      as (outcome & w' & Hrun & _ & _ & _ & _ & _ & _ & Hnone);
      [vm_compute; reflexivity|].
    exists outcome, w'. split; [exact Hrun|].
    apply Hnone. simpl. intros r Hr.
    repeat (destruct Hr as [<- | Hr]; [discriminate|]). destruct Hr.
Defined.

(* ================================================================== *)
(** * How the operations compose *)

Lemma fetchInvoiceById_result (id : string) (w : World) :
  fst (fetchInvoiceById id w) =
  if refuses w (SELECT_invoice id)
  then Throw (Error "Failed to fetch invoice.")
  else Normal (option_map invoice_form
                 (hd_error (filter (fun r => String.eqb (inv_id r) id)
                              (invoices w)))).
Proof.
  unfold fetchInvoiceById, try_catch, bind, sql_select_invoice, sql.
  destruct (refuses w (SELECT_invoice id)); [reflexivity|].
  cbn [invoices with_statements].
  destruct (filter (fun r => String.eqb (inv_id r) id) (invoices w));
    reflexivity.
Qed.

Lemma filter_idem {A} (p : A -> bool) (l : list A) :
  filter p (filter p l) = filter p l.
Proof.
  induction l as [|x l IH]; simpl; [reflexivity|].
  destruct (p x) eqn:Hx; simpl; [rewrite Hx|]; now rewrite IH.
Qed.

Lemma filter_other_id (id other : string) (l : list InvoiceRow) :
  other <> id ->
  filter (fun r => String.eqb (inv_id r) other)
    (filter (fun r => negb (String.eqb (inv_id r) id)) l) =
  filter (fun r => String.eqb (inv_id r) other) l.
Proof.
  intros Hother. induction l as [|x l IH]; simpl; [reflexivity|].
  destruct (String.eqb (inv_id x) id) eqn:Hid; simpl.
  - apply String.eqb_eq in Hid.
    destruct (String.eqb (inv_id x) other) eqn:Ho; [|exact IH].
    apply String.eqb_eq in Ho. congruence.
  - now rewrite IH.
Qed.

(** X3.  After a [deleteInvoice] that the endpoint took, [fetchInvoiceById]
    finds nothing under that id and finds under every other id what it
    found before; deleting the same id again changes no row. *)
Theorem deleteInvoice_then_fetchInvoiceById (id : string) (w : World) :
  refuses w (DELETE_invoice id) = false ->
  refuses w (SELECT_invoice id) = false ->
  let w' := snd (deleteInvoice id w) in
  fst (fetchInvoiceById id w') = Normal None /\
  (forall other, other <> id ->
     fst (fetchInvoiceById other w') = fst (fetchInvoiceById other w)) /\
  invoices (snd (deleteInvoice id w')) = invoices w'.
Proof.
  intros Hdel Hsel w'.
  assert (Hw' : invoices w' =
                filter (fun r => negb (String.eqb (inv_id r) id)) (invoices w)
                /\ refuses w' = refuses w).
  { unfold w', deleteInvoice, try_catch, bind, sql_delete_invoice, sql.
    rewrite Hdel. split; reflexivity. }
  destruct Hw' as [Hrows Href].
  split; [|split].
  - rewrite fetchInvoiceById_result, Href, Hsel, Hrows.
    rewrite filter_none; [reflexivity|].
    intros r Hr. apply filter_In in Hr as [_ Hr].
    apply negb_true_iff in Hr. exact Hr.
  - intros other Hother.
    rewrite !fetchInvoiceById_result, Href, Hrows.
    now rewrite filter_other_id.
  - unfold deleteInvoice, try_catch, bind, sql_delete_invoice, sql.
    rewrite Href.
    destruct (refuses w (DELETE_invoice id)); [reflexivity|].
    cbn [invoices with_revalidated with_invoices with_statements fst snd].
    rewrite Hrows. apply filter_idem.
Qed.

Section CreateThenFetch.
Context `{Platform}.

(** What [createInvoice] does with a form the schema accepts. *)
Lemma createInvoice_runs prevState formData data w :
  form_parse formData = SafeParseSuccess data ->
  let date := string_of_list_ascii (iso_date (clock w)) in
  let stmt := INSERT_invoice (customerId data) (amount data * 100)%float
                (status data) date in
  (exists cents,
     int_of_number (amount data * 100)%float = Some cents /\
     createInvoice prevState formData w =
     (Throw (NEXT_REDIRECT "/dashboard/invoices"),
      with_revalidated (revalidated w ++ ["/dashboard/invoices"])
        (with_uuid_count (S (uuid_count w))
           (with_invoices
              (invoices w ++
                 [{| inv_id := uuid_generate_v4 w (uuid_count w);
                     inv_customer_id := customerId data;
                     inv_amount := cents;
                     inv_status := status data;
                     inv_date := date |}])
              (sent stmt w)))))
  \/
  createInvoice prevState formData w =
  (Normal {| errors := None;
             message := Some "Database Error: Failed to Create Invoice." |},
   sent stmt w).
Proof.
  intros Hp date stmt.
  destruct (refuses w stmt) eqn:Href.
  - right. unfold form_parse in Hp.
    unfold createInvoice, CreateInvoice_safeParse. rewrite Hp.
    unfold bind, try_catch, Date_now, sql_insert_invoice, sql, bind_amount.
    rewrite toISOString_split_date. fold date. fold stmt. rewrite Href.
    reflexivity.
  - destruct (int_of_number (amount data * 100)%float) as [cents|] eqn:Hint.
    + left. exists cents. split; [reflexivity|].
      now apply createInvoice_accepted.
    + right. unfold form_parse in Hp.
      unfold createInvoice, CreateInvoice_safeParse. rewrite Hp.
      unfold bind, try_catch, Date_now, sql_insert_invoice, sql, bind_amount.
      rewrite toISOString_split_date. fold date. fold stmt.
      rewrite Href, Hint. reflexivity.
Qed.

(** X4.  After a [createInvoice] that went through (it threw the
    redirect), with the new row's id not yet in the table,
    [fetchInvoiceById] under that id returns the customer and the status
    of the form, and as amount the stored cents divided by 100. *)
Theorem createInvoice_then_fetchInvoiceById
    (prevState : State) (formData : FormData) (data : InvoiceFields)
    (w w' : World) :
  form_parse formData = SafeParseSuccess data ->
  createInvoice prevState formData w =
  (Throw (NEXT_REDIRECT "/dashboard/invoices"), w') ->
  let id := uuid_generate_v4 w (uuid_count w) in
  (forall r, In r (invoices w) -> inv_id r <> id) ->
  refuses w (SELECT_invoice id) = false ->
  exists cents,
    int_of_number (amount data * 100)%float = Some cents /\
    fst (fetchInvoiceById id w') =
    Normal (Some {| form_id := id;
                    form_customer_id := customerId data;
                    form_amount := (number_of_int cents / 100)%float;
                    form_status := status data |}).
Proof.
  intros Hp Hrun id Hfresh Hsel.
  destruct (createInvoice_runs prevState formData data w Hp)
    as [(cents & Hint & Hok) | Hfail].
  - rewrite Hok in Hrun. injection Hrun as Hw'. subst w'.
    exists cents. split; [exact Hint|].
    rewrite fetchInvoiceById_result.
    cbn [refuses invoices with_revalidated with_uuid_count with_invoices
           with_statements sent].
    rewrite Hsel, filter_app, filter_none.
    + cbn [filter inv_id]. fold id. rewrite String.eqb_refl. reflexivity.
    + intros r Hr. apply String.eqb_neq. now apply Hfresh.
  - rewrite Hfail in Hrun. discriminate.
Qed.

End CreateThenFetch.

(** X3 at work on invoice [i-3]. *)
Lemma deleteInvoice_then_fetch_witness :
  fst (fetchInvoiceById "i-3" (snd (deleteInvoice "i-3" demo_world)))
  = Normal None /\
  fst (fetchInvoiceById "i-4" (snd (deleteInvoice "i-3" demo_world)))
  = fst (fetchInvoiceById "i-4" demo_world).
Proof.
  destruct (deleteInvoice_then_fetchInvoiceById "i-3" demo_world eq_refl eq_refl)
    as (Hgone & Hother & _).
  split; [exact Hgone|]. apply Hother. discriminate.
Defined.

(** X4 at work: 10.50 comes back as 1050 cents over 100. *)
Lemma createInvoice_then_fetch_witness :
  fst (fetchInvoiceById "uuid-0"
         (snd (@createInvoice demo_platform no_state
                 (demo_form "c-1" "10.50" "pending") demo_world)))
  = Normal (Some {| form_id := "uuid-0";
                    form_customer_id := "c-1";
                    form_amount := (number_of_int 1050 / 100)%float;
                    form_status := "pending" |}).
Proof.
  destruct (@createInvoice_then_fetchInvoiceById demo_platform no_state
              (demo_form "c-1" "10.50" "pending")
              {| customerId := "c-1"; amount := parse_decimal "10.50";
                 status := "pending" |}
              demo_world
              (snd (@createInvoice demo_platform no_state
                      (demo_form "c-1" "10.50" "pending") demo_world)))
    as (cents & Hcents & Hfetch).
  - vm_compute. reflexivity.
  - vm_compute. reflexivity.
  - simpl. intros r Hr.
    repeat (destruct Hr as [<- | Hr]; [discriminate|]). destruct Hr.
  - reflexivity.
  - vm_compute in Hcents. injection Hcents as <-. exact Hfetch.
Defined.

(* ================================================================== *)
(** * More about the query layer *)

Lemma fetchInvoicesPages_result (query : string) (w : World) :
  fst (fetchInvoicesPages query w) =
  if refuses w (SELECT_count_filtered ("%" ++ query ++ "%")%string)
  then Throw (Error "Failed to fetch total number of invoices.")
  else Normal
         (Math_ceil
            (inject_Z
               (Z.of_nat
                  (List.length
                     (filter (where_ilike (locale w)
                                ("%" ++ query ++ "%")%string)
                        (invoices_join_customers w))))
             / inject_Z 6)%Q).
Proof.
  unfold fetchInvoicesPages, try_catch, bind, sql_count_filtered, sql.
  destruct (refuses w _); reflexivity.
Qed.

Lemma fetchFilteredInvoices_result (query : string) (currentPage : Z)
    (w : World) :
  (1 <= currentPage)%Z ->
  fst (fetchFilteredInvoices query currentPage w) =
  if refuses w (SELECT_filtered_invoices ("%" ++ query ++ "%")%string 6
                  ((currentPage - 1) * 6))
  then Throw (Error "Failed to fetch invoices.")
  else Normal
         (map select_invoices_table
            (firstn 6
               (skipn (Z.to_nat ((currentPage - 1) * 6))
                  (order_by_date_desc
                     (filter (where_ilike (locale w)
                                ("%" ++ query ++ "%")%string)
                        (invoices_join_customers w)))))).
Proof.
  intros Hpage.
  unfold fetchFilteredInvoices, try_catch, bind,
    sql_select_filtered_invoices, sql, ITEMS_PER_PAGE.
  destruct (refuses w _); [reflexivity|].
  assert (Hoff : ((6 <? 0) || ((currentPage - 1) * 6 <? 0))%Z = false).
  { apply orb_false_iff. split; apply Z.ltb_ge; lia. }
  rewrite Hoff. reflexivity.
Qed.

(** X5.  The page count and the pages agree, for every query: with
    [totalPages] from [fetchInvoicesPages], [fetchFilteredInvoices]
    returns 6 rows on every page before the last, between 1 and 6 on page
    [totalPages], and none on any page after it. *)
Theorem pages_agree_with_page_count
    (query : string) (currentPage : Z) (w : World) :
  (1 <= currentPage)%Z ->
  refuses w (SELECT_count_filtered ("%" ++ query ++ "%")%string) = false ->
  refuses w (SELECT_filtered_invoices ("%" ++ query ++ "%")%string 6
               ((currentPage - 1) * 6)) = false ->
  exists totalPages rows,
    fst (fetchInvoicesPages query w) = Normal totalPages /\
    fst (fetchFilteredInvoices query currentPage w) = Normal rows /\
    (currentPage < totalPages -> List.length rows = 6%nat)%Z /\
    (currentPage = totalPages -> (1 <= List.length rows <= 6)%nat) /\
    (totalPages < currentPage -> rows = [])%Z.
Proof.
  intros Hpage Hcount Hrows.
  rewrite fetchInvoicesPages_result, Hcount.
  rewrite (fetchFilteredInvoices_result _ _ _ Hpage), Hrows.
  set (found := filter (where_ilike (locale w)
                                    ("%" ++ query ++ "%")%string)
                  (invoices_join_customers w)).
  do 2 eexists. split; [reflexivity|]. split; [reflexivity|].
  pose proof (Math_ceil_sixths (Z.of_nat (List.length found))) as Hp.
  cbv zeta in Hp.
  set (totalPages := Math_ceil _) in *.
  assert (Hlen : List.length
                   (firstn 6 (skipn (Z.to_nat ((currentPage - 1) * 6))
                                (order_by_date_desc found)))
                 = Nat.min 6 (List.length found
                              - Z.to_nat ((currentPage - 1) * 6))).
  { rewrite length_firstn, length_skipn.
    now rewrite (Permutation_length (order_by_date_desc_perm found)). }
  rewrite length_map, Hlen. repeat split; try lia.
  intros Hafter.
  destruct (firstn 6 _) as [|r rest] eqn:Hfirst; [reflexivity|].
  cbn [List.length] in Hlen. lia.
Qed.

Section ReadOnly.
Context `{Utils}.

(** X6.  The four read functions only read: whatever the endpoint does,
    after [fetchFilteredInvoices], [fetchInvoicesPages],
    [fetchInvoiceById] and [fetchCardData] the three tables hold the same
    rows and the page cache is as it was. *)
Theorem fetches_change_no_data
    (query id : string) (currentPage : Z) (w : World) :
  unchanged_data w (snd (fetchFilteredInvoices query currentPage w)) /\
  unchanged_data w (snd (fetchInvoicesPages query w)) /\
  unchanged_data w (snd (fetchInvoiceById id w)) /\
  unchanged_data w (snd (fetchCardData w)).
Proof.
  unfold unchanged_data. repeat split.
  all: unfold fetchFilteredInvoices, fetchInvoicesPages, fetchInvoiceById,
         fetchCardData, try_catch, bind, Promise_all3,
         sql_select_filtered_invoices, sql_count_filtered,
         sql_select_invoice, sql_count_invoices, sql_count_customers,
         sql_status_sums, sql.
  all: repeat match goal with
         | |- context [if ?b then _ else _] => destruct b
         end; reflexivity.
Qed.

(** X7.  A read whose statement the endpoint fails throws the function's
    own message, after a line "Database Error:" on the console; the cause
    is not passed on.  For [fetchCardData] one failing statement out of
    its three is enough. *)
Theorem fetches_wrap_database_errors
    (query id : string) (currentPage : Z) (w : World) :
  (refuses w (SELECT_filtered_invoices ("%" ++ query ++ "%")%string 6
                ((currentPage - 1) * 6)) = true ->
   exists w',
     fetchFilteredInvoices query currentPage w =
     (Throw (Error "Failed to fetch invoices."), w') /\
     console w' = console w ++ ["Database Error:"]) /\
  (refuses w (SELECT_count_filtered ("%" ++ query ++ "%")%string) = true ->
   exists w',
     fetchInvoicesPages query w =
     (Throw (Error "Failed to fetch total number of invoices."), w') /\
     console w' = console w ++ ["Database Error:"]) /\
  (refuses w (SELECT_invoice id) = true ->
   exists w',
     fetchInvoiceById id w = (Throw (Error "Failed to fetch invoice."), w') /\
     console w' = console w ++ ["Database Error:"]) /\
  (refuses w SELECT_count_invoices = true \/
   refuses w SELECT_count_customers = true \/
   refuses w SELECT_status_sums = true ->
   exists w',
     fetchCardData w = (Throw (Error "Failed to fetch card data."), w') /\
     console w' = console w ++ ["Database Error:"]).
Proof.
  repeat split.
  - intros Href.
    unfold fetchFilteredInvoices, try_catch, bind,
      sql_select_filtered_invoices, sql, ITEMS_PER_PAGE.
    rewrite Href. eexists. split; reflexivity.
  - intros Href.
    unfold fetchInvoicesPages, try_catch, bind, sql_count_filtered, sql.
    rewrite Href. eexists. split; reflexivity.
  - intros Href.
    unfold fetchInvoiceById, try_catch, bind, sql_select_invoice, sql.
    rewrite Href. eexists. split; reflexivity.
  - intros Href.
    unfold fetchCardData, try_catch, bind, Promise_all3,
      sql_count_invoices, sql_count_customers, sql_status_sums, sql.
    destruct (refuses w SELECT_count_invoices) eqn:H1;
      cbn [refuses with_statements];
      destruct (refuses w SELECT_count_customers) eqn:H2;
      cbn [refuses with_statements];
      destruct (refuses w SELECT_status_sums) eqn:H3;
      try (eexists; split; reflexivity).
    destruct Href as [Href | [Href | Href]]; discriminate.
Qed.

End ReadOnly.

Lemma SUM_amount_when (s : string) (l : list InvoiceRow) :
  nullish (SUM (amount_when s) l) 0%Z = total_of_status s l.
Proof.
  assert (Hfold : forall l',
            fold_right (fun r acc => (amount_when s r + acc)%Z) 0%Z l'
            = total_of_status s l').
  { induction l' as [|r l' IH]; [reflexivity|].
    unfold total_of_status in *. simpl. rewrite IH. unfold amount_when.
    destruct (String.eqb (inv_status r) s); simpl; lia. }
  destruct l as [|r l]; [reflexivity|].
  unfold SUM, nullish. apply Hfold.
Qed.

Section CardTotals.
Context `{Utils}.

(** X8.  With the three statements answered, [fetchCardData] returns the
    number of rows of [customers] and of [invoices], and as totals the
    currency form of the sum of the amounts of the paid invoices and of
    the pending ones; an invoice of any other status counts as an invoice
    and adds to neither total. *)
Theorem fetchCardData_counts_and_totals (w : World) :
  refuses w SELECT_count_invoices = false ->
  refuses w SELECT_count_customers = false ->
  refuses w SELECT_status_sums = false ->
  exists w',
    fetchCardData w =
    (Normal {| numberOfCustomers := Z.of_nat (List.length (customers w));
               numberOfInvoices := Z.of_nat (List.length (invoices w));
               totalPaidInvoices :=
                 formatCurrency (total_of_status "paid" (invoices w));
               totalPendingInvoices :=
                 formatCurrency (total_of_status "pending" (invoices w)) |},
     w').
Proof.
  intros H1 H2 H3.
  unfold fetchCardData, try_catch, bind, Promise_all3,
    sql_count_invoices, sql_count_customers, sql_status_sums, sql.
  rewrite H1. cbn [refuses with_statements].
  rewrite H2. cbn [refuses with_statements].
  rewrite H3. cbn [invoices customers with_statements].
  cbn [nth_error property ret count paid pending].
  rewrite !SUM_amount_when.
  eexists. reflexivity.
Qed.

End CardTotals.

(** X8 at work on the eight invoices. *)
Lemma fetchCardData_totals_witness :
  exists w',
    @fetchCardData demo_utils demo_world =
    (Normal {| numberOfCustomers := 2;
               numberOfInvoices := 8;
               totalPaidInvoices := "$803.85";
               totalPendingInvoices := "$1256.32" |},
     w').
Proof.
  destruct (@fetchCardData_counts_and_totals demo_utils demo_world
              eq_refl eq_refl eq_refl) as (w' & Hrun).
  exists w'. exact Hrun.
Defined.

(** X5 at work: eight invoices make two pages, the second of two rows. *)
Lemma pages_agree_witness :
  fst (fetchInvoicesPages EmptyString demo_world) = Normal 2%Z /\
  exists rows,
    fst (fetchFilteredInvoices EmptyString 2 demo_world) = Normal rows /\
    (1 <= List.length rows <= 6)%nat.
Proof.
  destruct (pages_agree_with_page_count EmptyString 2 demo_world)
    as (totalPages & rows & Hpages & Hrows & _ & Hlast & _);
    [lia | reflexivity | reflexivity |].
  vm_compute in Hpages. injection Hpages as <-.
  split; [reflexivity|]. exists rows. split; [exact Hrows|].
  now apply Hlast.
Defined.

(** X7 at work during an outage. *)
Lemma fetches_outage_witness :
  fst (fetchFilteredInvoices "lee" 1 demo_outage)
  = Throw (Error "Failed to fetch invoices.") /\
  fst (fetchInvoicesPages "lee" demo_outage)
  = Throw (Error "Failed to fetch total number of invoices.") /\
  fst (fetchInvoiceById "i-3" demo_outage)
  = Throw (Error "Failed to fetch invoice.") /\
  fst (@fetchCardData demo_utils demo_outage)
  = Throw (Error "Failed to fetch card data.").
Proof.
  destruct (@fetches_wrap_database_errors demo_utils "lee" "i-3" 1 demo_outage)
    as (H1 & H2 & H3 & H4).
  destruct (H1 eq_refl) as (w1 & -> & _).
  destruct (H2 eq_refl) as (w2 & -> & _).
  destruct (H3 eq_refl) as (w3 & -> & _).
  destruct (H4 (or_introl eq_refl)) as (w4 & -> & _).
  repeat split.
Defined.

(* ================================================================== *)
(** * More about the schemas *)

(** A number that is not at most [0] is above [0]. *)
Lemma not_leb_zero_ltb (x : number) :
  is_nan x = false -> (x <=? 0)%float = false -> (0 <? x)%float = true.
Proof.
  unfold is_nan. rewrite ltb_spec, leb_spec, eqb_spec.
  change (Prim2SF 0) with (S754_zero false).
  unfold SFltb, SFleb, SFeqb.
  destruct (Prim2SF x) as [z|i| |sg m e]; simpl; try discriminate.
  - destruct i; [discriminate | reflexivity].
  - destruct sg; [discriminate | reflexivity].
Qed.

Lemma filter_issues_at {T} (path at_path : string) (r : T + list string) :
  filter (fun i => String.eqb (issue_path i) path) (issues_at at_path r) =
  if String.eqb at_path path then issues_at at_path r else [].
Proof.
  destruct r as [v | messages]; simpl; [now destruct (String.eqb _ _)|].
  induction messages as [|m messages IH]; simpl.
  - now destruct (String.eqb _ _).
  - destruct (String.eqb at_path path) eqn:Hp; simpl; now rewrite IH.
Qed.

Lemma issue_message_issues_at {T} (path : string) (r : T + list string) :
  map issue_message (issues_at path r) =
  match r with inl _ => [] | inr messages => messages end.
Proof.
  destruct r as [v | messages]; simpl; [reflexivity|].
  rewrite map_map. apply map_id.
Qed.

Section SchemaMore.
Context `{Platform}.

Lemma z_string_accepts invalid_type_error input v :
  z_string invalid_type_error input = inl v <-> input = JsString v.
Proof.
  unfold z_string. destruct input; split; intros Hv;
    try discriminate; congruence.
Qed.

Lemma z_coerce_number_gt_accepts message input v :
  z_coerce_number_gt 0%float message input = inl v <->
  Number input = v /\ (0 <? v)%float = true.
Proof.
  unfold z_coerce_number_gt. split.
  - destruct (is_nan (Number input)) eqn:Hnan; [discriminate|].
    destruct (Number input <=? 0)%float eqn:Hle; [discriminate|].
    intros Hv. injection Hv as <-. split; [reflexivity|].
    now apply not_leb_zero_ltb.
  - intros [<- Hpos]. apply ltb_zero_accepted in Hpos as [-> ->].
    reflexivity.
Qed.

Lemma z_enum_status_accepts invalid_type_error input v :
  z_enum_status invalid_type_error input = inl v <->
  input = JsString v /\ (v = "pending" \/ v = "paid").
Proof.
  unfold z_enum_status. split.
  - destruct input as [| |s|x|o]; try discriminate.
    destruct (String.eqb s "pending" || String.eqb s "paid") eqn:Hs;
      [|discriminate].
    intros Hv. injection Hv as <-. split; [reflexivity|].
    apply orb_true_iff in Hs as [Hs | Hs]; apply String.eqb_eq in Hs; auto.
  - intros [-> [-> | ->]]; reflexivity.
Qed.

(** X9.  The invoice schema accepts a form exactly when its customer is a
    string (any string, the empty one too), its amount coerces to a number
    above zero (so not to [NaN]), and its status is the string [pending]
    or [paid]; the accepted fields are that string, that number and that
    status. *)
Theorem FormSchema_accepts_exactly
    (customerId_in amount_in status_in : JsValue) (data : InvoiceFields) :
  FormSchema_omit_id_date customerId_in amount_in status_in =
  SafeParseSuccess data
  <->
  customerId_in = JsString (customerId data) /\
  Number amount_in = amount data /\
  (0 <? amount data)%float = true /\
  status_in = JsString (status data) /\
  (status data = "pending" \/ status data = "paid").
Proof.
  split.
  - unfold FormSchema_omit_id_date.
    destruct (z_string _ customerId_in) as [c|ec] eqn:Hc;
      destruct (z_coerce_number_gt _ _ amount_in) as [a|ea] eqn:Ha;
      destruct (z_enum_status _ status_in) as [s|es] eqn:Hs;
      try discriminate.
    intros Hdata. injection Hdata as <-. simpl.
    apply z_string_accepts in Hc.
    apply z_coerce_number_gt_accepts in Ha as [Ha Hpos].
    apply z_enum_status_accepts in Hs as [Hs Hstatus].
    auto.
  - intros (Hc & Ha & Hpos & Hs & Hstatus).
    destruct data as [c a s]. simpl in *. subst a.
    now apply FormSchema_accepts.
Qed.

(** X10.  When the invoice schema turns a form down, the error map names
    the fields that failed and no other: a field has no entry exactly when
    it is in order on its own, and some field has an entry. *)
Theorem rejected_form_names_failing_fields
    (customerId_in amount_in status_in : JsValue) (error : list ZodIssue) :
  FormSchema_omit_id_date customerId_in amount_in status_in =
  SafeParseError error ->
  let fieldErrors := flatten_fieldErrors error in
  (customerId_errors fieldErrors = None <->
   exists c, customerId_in = JsString c) /\
  (amount_errors fieldErrors = None <->
   (0 <? Number amount_in)%float = true) /\
  (status_errors fieldErrors = None <->
   status_in = JsString "pending" \/ status_in = JsString "paid") /\
  (customerId_errors fieldErrors <> None \/
   amount_errors fieldErrors <> None \/
   status_errors fieldErrors <> None).
Proof.
  intros Herr fieldErrors. unfold FormSchema_omit_id_date in Herr.
  set (rc := z_string (Some "Please select a customer.") customerId_in) in *.
  set (ra := z_coerce_number_gt 0%float
               "Please enter an amount greater than $0." amount_in) in *.
  set (rs := z_enum_status (Some "Please select an invoice status.")
               status_in) in *.
  assert (Herror : error = issues_at "customerId" rc ++ issues_at "amount" ra
                             ++ issues_at "status" rs).
  { destruct rc, ra, rs; try discriminate; now injection Herr as <-. }
  assert (Hc : customerId_errors fieldErrors = None <-> exists v, rc = inl v).
  { unfold fieldErrors, flatten_fieldErrors, customerId_errors, messages_at.
    rewrite Herror, !filter_app, !filter_issues_at. simpl.
    rewrite !app_nil_r.
    unfold rc, z_string.
    destruct customerId_in; simpl; split; intros Hx;
      try discriminate; eauto; destruct Hx; discriminate. }
  assert (Ha : amount_errors fieldErrors = None <-> exists v, ra = inl v).
  { unfold fieldErrors, flatten_fieldErrors, amount_errors, messages_at.
    rewrite Herror, !filter_app, !filter_issues_at. simpl.
    rewrite !app_nil_r.
    unfold ra, z_coerce_number_gt.
    destruct (is_nan (Number amount_in));
      [|destruct (Number amount_in <=? 0)%float];
      simpl; split; intros Hx;
      try discriminate; eauto; destruct Hx; discriminate. }
  assert (Hs : status_errors fieldErrors = None <-> exists v, rs = inl v).
  { unfold fieldErrors, flatten_fieldErrors, status_errors, messages_at.
    rewrite Herror, !filter_app, !filter_issues_at. simpl.
    unfold rs, z_enum_status.
    destruct status_in as [| |s|x|o]; simpl;
      try (split; intros Hx; [discriminate | destruct Hx; discriminate]).
    destruct (String.eqb s "pending" || String.eqb s "paid"); simpl;
      split; intros Hx; try discriminate; eauto; destruct Hx; discriminate. }
  split; [|split; [|split]].
  - rewrite Hc. split; intros [v Hv]; exists v;
      now apply (z_string_accepts (Some "Please select a customer.")).
  - rewrite Ha. split.
    + intros [v Hv]. apply z_coerce_number_gt_accepts in Hv as [-> Hpos].
      exact Hpos.
    + intros Hpos. exists (Number amount_in).
      now apply z_coerce_number_gt_accepts.
  - rewrite Hs. split.
    + intros [v Hv]. apply z_enum_status_accepts in Hv as [-> [-> | ->]]; auto.
    + intros [-> | ->]; eexists; reflexivity.
  - destruct (customerId_errors fieldErrors) eqn:Ec; [left; discriminate|].
    destruct (amount_errors fieldErrors) eqn:Ea; [right; left; discriminate|].
    destruct (status_errors fieldErrors) eqn:Es;
      [right; right; discriminate|].
    exfalso.
    destruct (proj1 Hc eq_refl) as [c Hrc].
    destruct (proj1 Ha eq_refl) as [a Hra].
    destruct (proj1 Hs eq_refl) as [s Hrs].
    fold rc ra rs in Herr. rewrite Hrc, Hra, Hrs in Herr. discriminate.
Qed.

End SchemaMore.

(** X10 at work: a good customer, an amount of 0 and an unknown status. *)
Lemma rejected_fields_witness :
  exists error,
    @form_parse demo_platform (demo_form "c-1" "0" "overdue")
    = SafeParseError error /\
    customerId_errors (flatten_fieldErrors error) = None /\
    amount_errors (flatten_fieldErrors error) <> None /\
    status_errors (flatten_fieldErrors error) <> None.
Proof.
  destruct (@form_parse demo_platform (demo_form "c-1" "0" "overdue"))
    as [data | error] eqn:Hparse; [vm_compute in Hparse; discriminate|].
  exists error. split; [reflexivity|].
  destruct (@rejected_form_names_failing_fields demo_platform
              (JsString "c-1") (JsString "0") (JsString "overdue") error
              Hparse) as (Hc & Ha & Hs & _).
  split; [|split].
  - apply Hc. now exists "c-1".
  - intros Hnone. apply Ha in Hnone. vm_compute in Hnone. discriminate.
  - intros Hnone. apply Hs in Hnone. destruct Hnone; discriminate.
Defined.

(* ================================================================== *)
(** * More about the sign-in *)

Section AuthMore.
Context `{Platform}.

(** X11.  [authorize] returns a user only after checking it: the
    credentials have the required shape, the lookup was answered, the user
    is a row of [users] under the e-mail address given, and the password
    given matches that row's hash. *)
Theorem authorize_returns_only_verified_users
    (credentials : Credentials) (w : World) (user : User) :
  fst (authorize credentials w) = Normal (Some user) ->
  exists email password,
    well_formed credentials email password /\
    refuses w (SELECT_user email) = false /\
    In user (users w) /\
    user_email user = email /\
    bcrypt_compare password (user_password user) = true.
Proof.
  intros Hrun.
  destruct (credentials_safeParse credentials) as [[email password] | error]
    eqn:Hparse.
  - apply credentials_accepted_inv in Hparse.
    exists email, password. split; [assumption|].
    rewrite (authorize_well_formed _ _ _ _ Hparse) in Hrun. cbv zeta in Hrun.
    destruct (refuses w (SELECT_user email)); [discriminate|].
    split; [reflexivity|].
    destruct (filter (fun u => String.eqb (user_email u) email) (users w))
      as [|found rest] eqn:Hfound; [discriminate|].
    assert (Hin : In found (filter (fun u => String.eqb (user_email u) email)
                              (users w)))
      by (rewrite Hfound; now left).
    apply filter_In in Hin as [Hin Hemail]. apply String.eqb_eq in Hemail.
    destruct (bcrypt_compare password (user_password found)) eqn:Hpw;
      [|discriminate].
    simpl in Hrun. injection Hrun as <-. auto.
  - unfold authorize in Hrun. rewrite Hparse in Hrun. discriminate.
Qed.

(** X12.  [authorize] changes no table and not the page cache.  It sends
    one statement, the lookup of the e-mail address, when the credentials
    have the required shape, and none when they do not: input of the wrong
    shape is turned down without asking the database. *)
Theorem authorize_asks_only_for_well_formed
    (credentials : Credentials) (w : World) :
  unchanged_data w (snd (authorize credentials w)) /\
  ((forall email password, ~ well_formed credentials email password) ->
   statements (snd (authorize credentials w)) = statements w) /\
  (forall email password,
     well_formed credentials email password ->
     statements (snd (authorize credentials w)) =
     statements w ++ [SELECT_user email]).
Proof.
  destruct (credentials_safeParse credentials) as [[email password] | error]
    eqn:Hparse.
  - apply credentials_accepted_inv in Hparse.
    assert (Hrun := authorize_well_formed _ _ _ w Hparse). cbv zeta in Hrun.
    split; [|split].
    + rewrite Hrun. unfold unchanged_data.
      destruct (refuses w (SELECT_user email)); [repeat split|].
      destruct (filter _ (users w)) as [|found rest]; [repeat split|].
      destruct (bcrypt_compare password (user_password found));
        repeat split.
    + intros Hbad. now destruct (Hbad _ _ Hparse).
    + intros email' password' Hwf.
      assert (email' = email) as ->.
      { destruct Hparse as (He & _), Hwf as (He' & _). congruence. }
      rewrite Hrun.
      destruct (refuses w (SELECT_user email)); [reflexivity|].
      destruct (filter _ (users w)) as [|found rest]; [reflexivity|].
      destruct (bcrypt_compare password (user_password found)); reflexivity.
  - assert (Hrun : authorize credentials w =
                   (Normal None,
                    with_console (console w ++ ["Invalid credentials"]) w)).
    { unfold authorize. rewrite Hparse. reflexivity. }
    rewrite Hrun. split; [repeat split|]. split; [reflexivity|].
    intros email password Hwf. apply credentials_accepts in Hwf. congruence.
Qed.

(** X13.  [authenticate] has no effect besides those of the sign-in, and
    it returns no message exactly when the sign-in returned: then the
    result is [undefined]. *)
Theorem authenticate_is_silent_on_success
    (prevState : option string) (formData : FormData) (w : World) :
  snd (authenticate prevState formData w) =
  snd (signIn "credentials" formData w) /\
  (fst (authenticate prevState formData w) = Normal None <->
   fst (signIn "credentials" formData w) = Normal tt).
Proof.
  unfold authenticate, try_catch, bind.
  destruct (signIn "credentials" formData w) as [[[]|error] w'] eqn:Hsign;
    simpl.
  - split; [reflexivity|]. split; reflexivity.
  - destruct error as [m|m|m|type|url];
      try (split; [reflexivity | split; discriminate]).
    destruct (String.eqb type "CredentialsSignin");
      (split; [reflexivity | split; discriminate]).
Qed.

End AuthMore.

(** X11 at work: the demo user signs in, and is the row of that address. *)
Lemma authorize_verified_witness :
  exists email password,
    @well_formed demo_platform
      (demo_credentials "user@nextmail.com" "123456") email password /\
    email = "user@nextmail.com".
Proof.
  destruct (@authorize_returns_only_verified_users demo_platform
              (demo_credentials "user@nextmail.com" "123456") demo_world
              {| user_id := "u-1"; user_email := "user@nextmail.com";
                 user_password := "hashed:123456" |})
    as (email & password & Hwf & _ & _ & Hemail & _); [reflexivity|].
  exists email, password. split; [exact Hwf | now rewrite <- Hemail].
Defined.

(* ================================================================== *)
(** * Queries that filter nothing *)

Lemma like_percents (p s : text) :
  forallb (fun c => Ascii.eqb c "%") p = true ->
  p <> [] ->
  like p s = true.
Proof.
  revert s. induction p as [|c p IH]; intros s Hp Hne; [congruence|].
  simpl in Hp. apply andb_true_iff in Hp as [Hc Hp].
  apply Ascii.eqb_eq in Hc. subst c.
  destruct p as [|c' p].
  - apply like_only_percent.
  - induction s as [|d s IHs].
    + rewrite like_percent, IH; [reflexivity | assumption | discriminate].
    + rewrite like_percent, IH; [reflexivity | assumption | discriminate].
Qed.

Lemma lower_percents (l : Locale) (p : text) :
  forallb (fun c => Ascii.eqb c "%") p = true ->
  forallb (fun c => Ascii.eqb c "%") (lower l p) = true.
Proof.
  induction p as [|c p IH]; simpl; [trivial|].
  rewrite !andb_true_iff. intros [Hc Hp]. split; [|auto].
  apply Ascii.eqb_eq in Hc. subst c. rewrite lower_char_percent.
  reflexivity.
Qed.

Lemma where_ilike_percents (l : Locale) (query : string)
    (r : InvoiceRow * CustomerRow) :
  forallb (fun c => Ascii.eqb c "%") (chars query) = true ->
  where_ilike l ("%" ++ query ++ "%")%string r = true.
Proof.
  intros Hq. destruct r as [i c]. unfold where_ilike, ilike.
  assert (Hlike : forall s,
            like (lower l (chars ("%" ++ query ++ "%")%string)) s = true).
  { intros s. apply like_percents.
    - apply lower_percents. rewrite !chars_append, !forallb_app, Hq.
      reflexivity.
    - rewrite chars_append. discriminate. }
  now rewrite !Hlike.
Qed.

Lemma join_length_one_customer (w : World) :
  (forall i, In i (invoices w) ->
     List.length (filter (fun c => String.eqb (inv_customer_id i) (cust_id c))
                    (customers w)) = 1%nat) ->
  List.length (invoices_join_customers w) = List.length (invoices w).
Proof.
  unfold invoices_join_customers.
  induction (invoices w) as [|i l IH]; intros Hone; [reflexivity|].
  simpl. rewrite length_app, length_map, Hone by now left.
  rewrite IH; [reflexivity|]. intros j Hj. apply Hone. now right.
Qed.

(** X14.  The empty query, and a query made of [%] alone, filter nothing:
    [fetchInvoicesPages] counts every invoice joined with its customer
    (every invoice, when each has exactly one customer row) and returns
    the ceiling of a sixth of that, and page 1 of
    [fetchFilteredInvoices] holds 6 rows, or all of them when they are
    fewer. *)
Theorem percent_query_filters_nothing (query : string) (w : World) :
  forallb (fun c => Ascii.eqb c "%") (chars query) = true ->
  refuses w (SELECT_count_filtered ("%" ++ query ++ "%")%string) = false ->
  refuses w (SELECT_filtered_invoices ("%" ++ query ++ "%")%string 6 0)
  = false ->
  let joined := List.length (invoices_join_customers w) in
  fst (fetchInvoicesPages query w) =
  Normal (Math_ceil (inject_Z (Z.of_nat joined) / inject_Z 6)%Q) /\
  (exists rows,
     fst (fetchFilteredInvoices query 1 w) = Normal rows /\
     List.length rows = Nat.min 6 joined) /\
  ((forall i, In i (invoices w) ->
      List.length (filter (fun c => String.eqb (inv_customer_id i) (cust_id c))
                     (customers w)) = 1%nat) ->
   joined = List.length (invoices w)).
Proof.
  intros Hq Hcount Hpage joined.
  assert (Hall : filter (where_ilike (locale w)
                                     ("%" ++ query ++ "%")%string)
                   (invoices_join_customers w) = invoices_join_customers w).
  { apply forallb_filter_id. apply forallb_forall.
    intros r _. now apply where_ilike_percents. }
  split; [|split].
  - now rewrite fetchInvoicesPages_result, Hcount, Hall.
  - rewrite fetchFilteredInvoices_result by lia.
    change ((1 - 1) * 6)%Z with 0%Z. rewrite Hpage, Hall.
    eexists. split; [reflexivity|].
    rewrite length_map, length_firstn. simpl skipn.
    now rewrite (Permutation_length (order_by_date_desc_perm _)).
  - apply join_length_one_customer.
Qed.

(** X14 at work: the eight invoices, none filtered out. *)
Lemma percent_query_witness :
  fst (fetchInvoicesPages "%" demo_world) = Normal 2%Z /\
  fst (fetchInvoicesPages EmptyString demo_world) = Normal 2%Z.
Proof.
  split.
  - rewrite (proj1 (percent_query_filters_nothing "%" demo_world
                      eq_refl eq_refl eq_refl)).
    reflexivity.
  - rewrite (proj1 (percent_query_filters_nothing EmptyString demo_world
                      eq_refl eq_refl eq_refl)).
    reflexivity.
Defined.

(* ================================================================== *)
(** * Facts about orders of text *)

Lemma ascii_compare_trans_lt (a b c : ascii) :
  Ascii.compare a b = Lt -> Ascii.compare b c = Lt -> Ascii.compare a c = Lt.
Proof.
  unfold Ascii.compare. rewrite !N.compare_lt_iff. lia.
Qed.

Lemma string_compare_trans_lt (s1 s2 s3 : string) :
  String.compare s1 s2 = Lt -> String.compare s2 s3 = Lt ->
  String.compare s1 s3 = Lt.
Proof.
  revert s2 s3. induction s1 as [|a s1 IH]; intros [|b s2] [|c s3];
    simpl; try discriminate; trivial.
  destruct (Ascii.compare a b) eqn:Hab; try discriminate;
    destruct (Ascii.compare b c) eqn:Hbc; try discriminate.
  - apply Ascii.compare_eq_iff in Hab, Hbc. subst.
    replace (Ascii.compare c c) with Eq
      by (symmetry; unfold Ascii.compare; apply N.compare_refl).
    apply IH.
  - apply Ascii.compare_eq_iff in Hab. subst. now rewrite Hbc.
  - apply Ascii.compare_eq_iff in Hbc. subst. now rewrite Hab.
  - now rewrite (ascii_compare_trans_lt _ _ _ Hab Hbc).
Qed.

Lemma string_compare_refl (s : string) : String.compare s s = Eq.
Proof.
  pose proof (String.compare_antisym s s) as Hs.
  destruct (String.compare s s); trivial; discriminate.
Qed.

Lemma string_leb_trans (s1 s2 s3 : string) :
  String.leb s1 s2 = true -> String.leb s2 s3 = true ->
  String.leb s1 s3 = true.
Proof.
  unfold String.leb.
  destruct (String.compare s1 s2) eqn:H12; try discriminate;
    destruct (String.compare s2 s3) eqn:H23; try discriminate; intros _ _.
  - apply String.compare_eq_iff in H12, H23. subst.
    now rewrite string_compare_refl.
  - apply String.compare_eq_iff in H12. subst. now rewrite H23.
  - apply String.compare_eq_iff in H23. subst. now rewrite H12.
  - now rewrite (string_compare_trans_lt _ _ _ H12 H23).
Qed.

Lemma date_ge_trans : Relations_1.Transitive date_ge.
Proof.
  intros a b c Hab Hbc. unfold date_ge, date_geb in *.
  eapply string_leb_trans; eassumption.
Qed.

Lemma StronglySorted_app_inv {A} (R : A -> A -> Prop) (l1 l2 : list A) :
  StronglySorted R (l1 ++ l2) ->
  forall a b, In a l1 -> In b l2 -> R a b.
Proof.
  induction l1 as [|x l1 IH]; intros Hs a b Ha Hb; [destruct Ha|].
  simpl in Hs. apply StronglySorted_inv in Hs as [Hs Hx].
  destruct Ha as [<- | Ha].
  - rewrite Forall_forall in Hx. apply Hx, in_or_app. now right.
  - now apply IH.
Qed.

Section NameOrder.
Context {A : Type} (leb : string -> string -> bool) (name : A -> string).

Lemma insert_by_name_perm x l :
  Permutation (insert_by_name leb name x l) (x :: l).
Proof.
  induction l as [|y l IH]; simpl; [reflexivity|].
  destruct (leb (name x) (name y)); [reflexivity|].
  rewrite IH. apply perm_swap.
Qed.

Lemma order_by_name_asc_perm l :
  Permutation (order_by_name_asc leb name l) l.
Proof.
  induction l as [|x l IH]; simpl; [reflexivity|].
  rewrite insert_by_name_perm. now constructor.
Qed.

Hypothesis leb_total : forall a b, leb a b = true \/ leb b a = true.

Lemma insert_by_name_sorted x l :
  Sorted (name_le leb name) l -> Sorted (name_le leb name) (insert_by_name leb name x l).
Proof.
  induction 1 as [|y l Hl IH Hhd]; simpl.
  - repeat constructor.
  - destruct (leb (name x) (name y)) eqn:Hxy.
    + constructor; [now constructor | now constructor].
    + constructor; [assumption|].
      assert (Hyx : name_le leb name y x).
      { unfold name_le. destruct (leb_total (name x) (name y)); congruence. }
      destruct l as [|z l]; simpl; [now constructor|].
      destruct (leb (name x) (name z)); constructor; trivial.
      now inversion Hhd.
Qed.

Lemma order_by_name_asc_sorted l :
  Sorted (name_le leb name) (order_by_name_asc leb name l).
Proof.
  induction l as [|x l IH]; simpl; [constructor|].
  now apply insert_by_name_sorted.
Qed.

End NameOrder.

Lemma Sorted_map {A B} (R : A -> A -> Prop) (R' : B -> B -> Prop)
    (f : A -> B) (l : list A) :
  (forall a b, R a b -> R' (f a) (f b)) ->
  Sorted R l -> Sorted R' (map f l).
Proof.
  intros Hf. induction 1 as [|x l Hl IH Hhd]; simpl; constructor; trivial.
  destruct Hhd; simpl; constructor; auto.
Qed.

(* ================================================================== *)
(** * The other queries: what the code does *)

Section SiteTheorems.
Context `{Utils}.

Lemma fetchLatestInvoices_result (s : Site) :
  fst (fetchLatestInvoices s) =
  if declines s SELECT_latest_invoices
  then Throw (Error "Failed to fetch the latest invoices.")
  else Normal (map latest_invoice (latest_five (world s))).
Proof.
  unfold fetchLatestInvoices, site_try_catch, site_bind,
    sql_select_latest_invoices, sql_query.
  destruct (declines s SELECT_latest_invoices); [reflexivity|].
  cbn [fst site_ret world with_queries]. f_equal.
  rewrite map_map. apply map_ext. intros [i c]. reflexivity.
Qed.

(** X15.  When the endpoint answers, [fetchLatestInvoices] lists five
    invoices joined with their customer, or all of them when they are
    fewer, each with its amount in currency form, the more recent first;
    and no invoice it leaves out is more recent than one it lists. *)
Theorem fetchLatestInvoices_lists_the_most_recent (s : Site) :
  declines s SELECT_latest_invoices = false ->
  exists listed rest,
    fst (fetchLatestInvoices s) = Normal (map latest_invoice listed) /\
    Permutation (listed ++ rest) (invoices_join_customers (world s)) /\
    List.length listed =
    Nat.min 5 (List.length (invoices_join_customers (world s))) /\
    Sorted date_ge listed /\
    (forall a b, In a listed -> In b rest -> date_ge a b).
Proof.
  intros Hup. rewrite fetchLatestInvoices_result, Hup.
  set (all := order_by_date_desc (invoices_join_customers (world s))).
  exists (firstn 5 all), (skipn 5 all).
  split; [reflexivity|]. split; [|split; [|split]].
  - rewrite firstn_skipn. apply order_by_date_desc_perm.
  - rewrite length_firstn. unfold all.
    now rewrite (Permutation_length (order_by_date_desc_perm _)).
  - apply Sorted_firstn, order_by_date_desc_sorted.
  - apply StronglySorted_app_inv. rewrite firstn_skipn.
    apply (Sorted_StronglySorted date_ge_trans), order_by_date_desc_sorted.
Qed.

(** X16.  When the endpoint answers, [fetchCustomers] returns the id and
    the name of every row of [customers], each row once, in ascending
    order of name (in the database's order of text, taken to compare any
    two names). *)
Theorem fetchCustomers_lists_every_customer_by_name (s : Site) :
  declines s SELECT_customers = false ->
  (forall a b, collation_leb s a b = true \/ collation_leb s b a = true) ->
  exists rows,
    fst (fetchCustomers s) = Normal rows /\
    Permutation rows
      (map (fun c => {| field_id := cust_id c; field_name := cust_name c |})
           (customers (world s))) /\
    Sorted (name_le (collation_leb s) field_name) rows.
Proof.
  intros Hup Htotal.
  unfold fetchCustomers, site_try_catch, site_bind, sql_select_customers,
    sql_query.
  rewrite Hup. cbn [fst site_ret world with_queries collation_leb].
  eexists. split; [reflexivity|].
  rewrite map_map. split.
  - apply Permutation_map, order_by_name_asc_perm.
  - apply (Sorted_map (name_le (collation_leb s) cust_name)).
    + intros a b Hab. exact Hab.
    + now apply order_by_name_asc_sorted.
Qed.

End SiteTheorems.

(* ================================================================== *)
(** * Facts about the grouped left join *)

Lemma customer_eqb_eq (a b : CustomerRow) :
  customer_eqb a b = true <-> a = b.
Proof.
  unfold customer_eqb. rewrite !andb_true_iff, !String.eqb_eq.
  destruct a, b; simpl. split.
  - intros [[[-> ->] ->] ->]. reflexivity.
  - intros Heq. injection Heq as -> -> -> ->. auto.
Qed.

Lemma customer_eqb_refl (a : CustomerRow) : customer_eqb a a = true.
Proof. now apply customer_eqb_eq. Qed.

Lemma left_join_rows_customer (w : World) (c : CustomerRow) :
  Forall (fun r => fst r = c) (left_join_rows w c) /\
  left_join_rows w c <> [].
Proof.
  unfold left_join_rows.
  destruct (customer_invoices w c) as [|i l]; split; try discriminate.
  - repeat constructor.
  - apply Forall_forall. intros r Hr. apply in_map_iff in Hr as (j & <- & _).
    reflexivity.
Qed.

Lemma filter_left_join_rows (w : World) (p : CustomerRow -> bool)
    (c : CustomerRow) :
  filter (fun r => p (fst r)) (left_join_rows w c) =
  if p c then left_join_rows w c else [].
Proof.
  destruct (left_join_rows_customer w c) as [Hc _].
  induction Hc as [|r l Hr Hl IH]; simpl.
  - now destruct (p c).
  - rewrite Hr, IH. now destruct (p c).
Qed.

Lemma filter_left_join (w : World) (p : CustomerRow -> bool)
    (cs : list CustomerRow) :
  filter (fun r => p (fst r)) (flat_map (left_join_rows w) cs) =
  flat_map (left_join_rows w) (filter p cs).
Proof.
  induction cs as [|c cs IH]; simpl; [reflexivity|].
  rewrite filter_app, filter_left_join_rows, IH.
  now destruct (p c).
Qed.

(** Rows of one customer in front add one key. *)
Lemma group_keys_run (c : CustomerRow) (run rest : list CustomerRow) :
  Forall (fun d => d = c) run ->
  filter (fun d => negb (customer_eqb c d)) (group_keys (run ++ rest)) =
  filter (fun d => negb (customer_eqb c d)) (group_keys rest).
Proof.
  induction 1 as [|d run Hd Hrun IH]; [reflexivity|].
  subst d. simpl. rewrite customer_eqb_refl. simpl.
  now rewrite filter_idem.
Qed.

Lemma group_keys_left_join (w : World) (cs : list CustomerRow) :
  NoDup cs ->
  group_keys (map fst (flat_map (left_join_rows w) cs)) = cs.
Proof.
  induction 1 as [|c cs Hc Hcs IH]; [reflexivity|].
  simpl. rewrite map_app.
  destruct (left_join_rows_customer w c) as [Hrun Hne].
  destruct (left_join_rows w c) as [|r run]; [congruence|].
  apply Forall_cons_iff in Hrun as [Hr Hrun].
  simpl. rewrite Hr. f_equal.
  rewrite group_keys_run, IH.
  - apply forallb_filter_id, forallb_forall. intros d Hd.
    apply negb_true_iff.
    destruct (customer_eqb c d) eqn:Heq; [|reflexivity].
    apply customer_eqb_eq in Heq. now subst.
  - apply Forall_forall. intros d Hd.
    apply in_map_iff in Hd as (r' & <- & Hr').
    rewrite Forall_forall in Hrun. auto.
Qed.

Lemma group_of_customer (w : World) (c : CustomerRow)
    (cs : list CustomerRow) :
  NoDup cs -> In c cs ->
  filter (fun r => customer_eqb c (fst r)) (flat_map (left_join_rows w) cs) =
  left_join_rows w c.
Proof.
  induction 1 as [|d cs Hd Hcs IH]; intros Hin; [destruct Hin|].
  simpl. rewrite filter_app, filter_left_join_rows.
  destruct Hin as [-> | Hin].
  - rewrite customer_eqb_refl.
    rewrite (filter_left_join w (customer_eqb c)), filter_none;
      [apply app_nil_r|].
    intros e He. destruct (customer_eqb c e) eqn:Heq; [|reflexivity].
    apply customer_eqb_eq in Heq. now subst.
  - destruct (customer_eqb c d) eqn:Heq.
    + apply customer_eqb_eq in Heq. now subst.
    + now apply IH.
Qed.

Lemma COUNT_left_join_rows (w : World) (c : CustomerRow) :
  Number_cell (COUNT_invoice_id (left_join_rows w c)) =
  Z.of_nat (List.length (customer_invoices w c)).
Proof.
  unfold left_join_rows, COUNT_invoice_id, Number_cell, nullish.
  destruct (customer_invoices w c) as [|i l]; [reflexivity|].
  f_equal. rewrite forallb_filter_id, length_map; [reflexivity|].
  apply forallb_forall. intros r Hr.
  apply in_map_iff in Hr as (j & <- & _). reflexivity.
Qed.

Lemma SUM_left_join_rows (w : World) (c : CustomerRow) (s : string) :
  Number_cell (SUM (joined_amount_when s) (left_join_rows w c)) =
  total_of_status s (customer_invoices w c).
Proof.
  unfold left_join_rows, Number_cell.
  destruct (customer_invoices w c) as [|i l]; [reflexivity|].
  rewrite <- SUM_amount_when.
  assert (Hfold : forall l',
            fold_right (fun r acc => (joined_amount_when s r + acc)%Z) 0%Z
              (map (fun j => (c, Some j)) l')
            = fold_right (fun r acc => (amount_when s r + acc)%Z) 0%Z l').
  { induction l' as [|j l' IH]; simpl; [reflexivity|]. now rewrite IH. }
  exact (Hfold (i :: l)).
Qed.

Section CustomersTable.
Context `{Utils}.

(** X17.  When the endpoint answers and no two rows of [customers] are
    the same, [fetchFilteredCustomers] returns one row for every customer
    whose name or e-mail matches (contains the query, letter case ignored
    as the locale of the database folds it, when the query has none of
    [%], [_] and backslash), in ascending order of name: the customer with the number of its invoices and the currency
    form of the sums of its pending and of its paid invoices.  A matching
    customer without invoices is listed, with 0 invoices and the currency
    form of 0 twice. *)
Theorem fetchFilteredCustomers_summarises_matching_customers
    (query : string) (s : Site) :
  declines s (SELECT_filtered_customers ("%" ++ query ++ "%")%string)
  = false ->
  NoDup (customers (world s)) ->
  (forall a b, collation_leb s a b = true \/ collation_leb s b a = true) ->
  let matching :=
    filter (where_customer_ilike (locale (world s))
                                 ("%" ++ query ++ "%")%string)
           (customers (world s)) in
  exists rows,
    fst (fetchFilteredCustomers query s) = Normal rows /\
    Permutation rows (map (customer_summary (world s)) matching) /\
    Sorted (name_le (collation_leb s) fc_name) rows /\
    (plain_query query ->
     forall c,
       In c matching <->
       In c (customers (world s)) /\
       contains_ci (locale (world s)) (cust_name c) query
       || contains_ci (locale (world s)) (cust_email c) query
       = true) /\
    (forall c,
       In c matching -> customer_invoices (world s) c = [] ->
       In {| fc_id := cust_id c; fc_name := cust_name c;
             fc_email := cust_email c; fc_image_url := cust_image_url c;
             fc_total_invoices := 0;
             fc_total_pending := formatCurrency 0;
             fc_total_paid := formatCurrency 0 |} rows).
Proof.
  intros Hup Hnodup Htotal matching.
  set (pattern := ("%" ++ query ++ "%")%string) in *.
  assert (Hrows : filter (fun r => where_customer_ilike (locale (world s))
                                     pattern (fst r))
                    (customers_left_join_invoices (world s))
                  = flat_map (left_join_rows (world s)) matching)
    by apply filter_left_join.
  assert (Hmatching : NoDup matching) by now apply NoDup_filter.
  assert (Hraw :
    map (fun customer =>
           {| fc_id := ctr_id customer;
              fc_name := ctr_name customer;
              fc_email := ctr_email customer;
              fc_image_url := ctr_image_url customer;
              fc_total_invoices := Number_cell (ctr_total_invoices customer);
              fc_total_pending :=
                formatCurrency (Number_cell (ctr_total_pending customer));
              fc_total_paid :=
                formatCurrency (Number_cell (ctr_total_paid customer)) |})
        (map (aggregate_customer
                (flat_map (left_join_rows (world s)) matching))
             (group_keys
                (map fst (flat_map (left_join_rows (world s)) matching))))
    = map (customer_summary (world s)) matching).
  { rewrite (group_keys_left_join _ _ Hmatching), map_map.
    apply map_ext_in. intros c Hc.
    unfold aggregate_customer, customer_summary.
    cbn [ctr_id ctr_name ctr_email ctr_image_url ctr_total_invoices
           ctr_total_pending ctr_total_paid].
    rewrite (group_of_customer _ _ _ Hmatching Hc).
    now rewrite COUNT_left_join_rows, !SUM_left_join_rows. }
  assert (Hperm : forall l,
            Permutation
              (map (fun customer =>
                      {| fc_id := ctr_id customer;
                         fc_name := ctr_name customer;
                         fc_email := ctr_email customer;
                         fc_image_url := ctr_image_url customer;
                         fc_total_invoices :=
                           Number_cell (ctr_total_invoices customer);
                         fc_total_pending :=
                           formatCurrency
                             (Number_cell (ctr_total_pending customer));
                         fc_total_paid :=
                           formatCurrency
                             (Number_cell (ctr_total_paid customer)) |})
                   (order_by_name_asc (collation_leb s) ctr_name l))
              (map (fun customer =>
                      {| fc_id := ctr_id customer;
                         fc_name := ctr_name customer;
                         fc_email := ctr_email customer;
                         fc_image_url := ctr_image_url customer;
                         fc_total_invoices :=
                           Number_cell (ctr_total_invoices customer);
                         fc_total_pending :=
                           formatCurrency
                             (Number_cell (ctr_total_pending customer));
                         fc_total_paid :=
                           formatCurrency
                             (Number_cell (ctr_total_paid customer)) |})
                   l)).
  { intros l. apply Permutation_map, order_by_name_asc_perm. }
  unfold fetchFilteredCustomers, site_try_catch, site_bind,
    sql_select_filtered_customers, sql_query.
  fold pattern. rewrite Hup.
  cbn [fst site_ret world with_queries collation_leb].
  rewrite Hrows.
  eexists. split; [reflexivity|].
  assert (Hall : Permutation
                   (map _ (order_by_name_asc (collation_leb s) ctr_name _))
                   (map (customer_summary (world s)) matching))
    by (rewrite <- Hraw; apply Hperm).
  split; [exact Hall|]. split; [|split].
  - apply (Sorted_map (name_le (collation_leb s) ctr_name)).
    + intros a b Hab. exact Hab.
    + now apply order_by_name_asc_sorted.
  - intros Hplain c. unfold matching. rewrite filter_In.
    unfold where_customer_ilike, pattern.
    now rewrite !(ilike_plain_contains _ _ _ Hplain).
  - intros c Hc Hnone.
    apply (Permutation_in _ (Permutation_sym Hall)).
    apply in_map_iff. exists c. split; [|exact Hc].
    unfold customer_summary. rewrite Hnone. reflexivity.
Qed.

End CustomersTable.

Section SiteFailures.
Context `{Utils}.

(** X18.  [fetchRevenue] announces itself on the console and then, when
    the endpoint answers, returns the rows of [revenue] as they are, month
    and revenue, and notes the completion; when the statement fails it
    throws "Failed to fetch revenue data." after the console line
    "Database Error:". *)
Theorem fetchRevenue_returns_the_table (s : Site) :
  (declines s SELECT_revenue = false ->
   exists s',
     fetchRevenue s = (Normal (revenue s), s') /\
     console (world s') =
     console (world s)
       ++ ["Fetching revenue data..."; "Data fetch completed after 1 sec."]) /\
  (declines s SELECT_revenue = true ->
   exists s',
     fetchRevenue s = (Throw (Error "Failed to fetch revenue data."), s') /\
     console (world s') =
     console (world s) ++ ["Fetching revenue data..."; "Database Error:"]).
Proof.
  assert (Hcopy : map (fun row => {| rev_month := rev_month row;
                                     rev_revenue := rev_revenue row |})
                    (revenue s) = revenue s).
  { rewrite <- (map_id (revenue s)) at 2. apply map_ext. now intros [m r]. }
  split; intros Hq;
    unfold fetchRevenue, site_try_catch, site_bind, sql_select_revenue,
      sql_query, in_world, console_log, console_error;
    cbn [world with_world declines queries with_queries revenue];
    rewrite Hq;
    cbn [world with_world declines queries with_queries revenue site_ret
           site_throw console with_console].
  - rewrite Hcopy. eexists. split; [reflexivity|].
    cbn [world console with_world with_console with_queries].
    now rewrite <- app_assoc.
  - eexists. split; [reflexivity|].
    cbn [world console with_world with_console with_queries].
    now rewrite <- app_assoc.
Qed.

(** X19.  [fetchLatestInvoices], [fetchCustomers] and
    [fetchFilteredCustomers], like [fetchRevenue], only read: whatever the
    endpoint does, the tables and the page cache are afterwards as they
    were.  When the endpoint fails the statement each throws its own
    message, and the cause is not passed on. *)
Theorem site_fetches_read_only_and_wrap_errors (query : string) (s : Site) :
  (site_unchanged_data s (snd (fetchRevenue s)) /\
   site_unchanged_data s (snd (fetchLatestInvoices s)) /\
   site_unchanged_data s (snd (fetchCustomers s)) /\
   site_unchanged_data s (snd (fetchFilteredCustomers query s))) /\
  (declines s SELECT_latest_invoices = true ->
   fst (fetchLatestInvoices s) =
   Throw (Error "Failed to fetch the latest invoices.")) /\
  (declines s SELECT_customers = true ->
   fst (fetchCustomers s) = Throw (Error "Failed to fetch all customers.")) /\
  (declines s (SELECT_filtered_customers ("%" ++ query ++ "%")%string) = true ->
   fst (fetchFilteredCustomers query s) =
   Throw (Error "Failed to fetch customer table.")).
Proof.
  split; [|split; [|split]].
  - unfold site_unchanged_data, unchanged_data.
    unfold fetchRevenue, fetchLatestInvoices, fetchCustomers,
      fetchFilteredCustomers, site_try_catch, site_bind, sql_select_revenue,
      sql_select_latest_invoices, sql_select_customers,
      sql_select_filtered_customers, sql_query, in_world, console_log,
      console_error.
    cbn [world with_world declines queries with_queries revenue].
    repeat split;
      repeat match goal with
        | |- context [if ?b then _ else _] => destruct b
        end; reflexivity.
  - intros Hq. unfold fetchLatestInvoices, site_try_catch, site_bind,
      sql_select_latest_invoices, sql_query. now rewrite Hq.
  - intros Hq. unfold fetchCustomers, site_try_catch, site_bind,
      sql_select_customers, sql_query. now rewrite Hq.
  - intros Hq. unfold fetchFilteredCustomers, site_try_catch, site_bind,
      sql_select_filtered_customers, sql_query. now rewrite Hq.
Qed.

End SiteFailures.

(** X15 at work: the five most recent of the eight invoices. *)
Lemma fetchLatestInvoices_witness :
  exists rows,
    fst (@fetchLatestInvoices demo_utils (demo_site demo_world false))
    = Normal rows /\
    map latest_id rows = ["i-4"; "i-5"; "i-6"; "i-7"; "i-8"].
Proof.
  destruct (@fetchLatestInvoices_lists_the_most_recent demo_utils
              (demo_site demo_world false) eq_refl)
    as (listed & rest & Hrun & _).
  remember (map latest_invoice listed) as rows eqn:Hrows.
  exists rows. split; [exact Hrun|].
  clear Hrows. vm_compute in Hrun. injection Hrun as <-. reflexivity.
Defined.

(** X16 at work: three customers by name. *)
Lemma fetchCustomers_witness :
  exists rows,
    fst (@fetchCustomers (demo_site demo_world_newcomer false)) = Normal rows /\
    map field_name rows = ["Amy Burns"; "Delba de Oliveira"; "Lee Robinson"].
Proof.
  destruct (fetchCustomers_lists_every_customer_by_name
              (demo_site demo_world_newcomer false) eq_refl
              String.leb_total)
    as (rows & Hrun & _).
  exists rows. split; [exact Hrun|].
  vm_compute in Hrun. injection Hrun as <-. reflexivity.
Defined.

(** X17 at work: the third customer has no invoice and is listed with
    zeros; and in the Latin-1 locale the query in lower case finds the
    customer whose name starts with the accented capital. *)
Lemma fetchFilteredCustomers_witness :
  (exists rows,
     fst (@fetchFilteredCustomers demo_utils EmptyString
            (demo_site demo_world_newcomer false)) = Normal rows /\
     In {| fc_id := "c-3"; fc_name := "Amy Burns";
           fc_email := "amy@burns.com";
           fc_image_url := "/customers/amy-burns.png";
           fc_total_invoices := 0;
           fc_total_pending := "$0.00";
           fc_total_paid := "$0.00" |} rows) /\
  (exists rows,
     fst (@fetchFilteredCustomers demo_utils angel
            (demo_site demo_world_latin1 false)) = Normal rows /\
     map fc_id rows = ["c-4"]).
Proof.
  split.
  - destruct (@fetchFilteredCustomers_summarises_matching_customers
                demo_utils EmptyString (demo_site demo_world_newcomer false)
                eq_refl)
      as (rows & Hrun & _ & _ & _ & Hzero).
    + repeat constructor; simpl; intuition discriminate.
    + exact String.leb_total.
    + exists rows. split; [exact Hrun|].
      apply (Hzero demo_newcomer).
      * simpl. auto.
      * reflexivity.
  - destruct (@fetchFilteredCustomers_summarises_matching_customers
                demo_utils angel (demo_site demo_world_latin1 false)
                eq_refl)
      as (rows & Hrun & _).
    + repeat constructor; simpl; intuition discriminate.
    + exact String.leb_total.
    + exists rows. split; [exact Hrun|].
      vm_compute in Hrun. injection Hrun as <-. reflexivity.
Defined.

(** X18 at work: the revenue table, and an outage. *)
Lemma fetchRevenue_witness :
  fst (@fetchRevenue (demo_site demo_world false))
  = Normal (revenue (demo_site demo_world false)) /\
  fst (@fetchRevenue (demo_site demo_world true))
  = Throw (Error "Failed to fetch revenue data.").
Proof.
  destruct (fetchRevenue_returns_the_table (demo_site demo_world false))
    as [Hup _].
  destruct (fetchRevenue_returns_the_table (demo_site demo_world true))
    as [_ Hdown].
  destruct (Hup eq_refl) as (s1 & -> & _).
  destruct (Hdown eq_refl) as (s2 & -> & _).
  split; reflexivity.
Defined.

(* ================================================================== *)
(** * More compositions *)

(** X20.  [getUser] returns a row of [users] only if that row has the
    e-mail address asked for, and returns [undefined] only if no row has
    it; when the lookup fails it returns neither and throws "Failed to
    fetch user.". *)
Theorem getUser_finds_by_email (email : string) (w : World) :
  (forall user,
     fst (getUser email w) = Normal (Some user) ->
     In user (users w) /\ user_email user = email) /\
  (fst (getUser email w) = Normal None ->
   forall user, In user (users w) -> user_email user <> email) /\
  (refuses w (SELECT_user email) = true <->
   fst (getUser email w) = Throw (Error "Failed to fetch user.")).
Proof.
  unfold getUser, try_catch, bind, sql_select_user, sql.
  destruct (refuses w (SELECT_user email)) eqn:Href.
  - split; [|split]; try discriminate. split; reflexivity.
  - cbn [users with_statements].
    destruct (filter (fun u => String.eqb (user_email u) email) (users w))
      as [|found rest] eqn:Hfound; simpl.
    + split; [discriminate|]. split; [|split; discriminate].
      intros _ user Hin Hmail.
      assert (Hu : In user (filter (fun u => String.eqb (user_email u) email)
                              (users w)))
        by (apply filter_In; split; [assumption | now apply String.eqb_eq]).
      rewrite Hfound in Hu. destruct Hu.
    + split; [|split; [discriminate | split; discriminate]].
      intros user Huser. injection Huser as <-.
      assert (Hu : In found (filter (fun u => String.eqb (user_email u) email)
                               (users w)))
        by (rewrite Hfound; now left).
      apply filter_In in Hu as [Hin Hmail]. now apply String.eqb_eq in Hmail.
Qed.

Section UpdateThenFetch.
Context `{Platform}.

(** What [updateInvoice] does with a form the schema accepts. *)
Lemma updateInvoice_runs id prevState formData data w :
  form_parse formData = SafeParseSuccess data ->
  let stmt := UPDATE_invoice (customerId data) (amount data * 100)%float
                (status data) id in
  (exists cents,
     int_of_number (amount data * 100)%float = Some cents /\
     updateInvoice id prevState formData w =
     (Throw (NEXT_REDIRECT "/dashboard/invoices"),
      with_revalidated (revalidated w ++ ["/dashboard/invoices"])
        (with_invoices
           (map (fun r => if String.eqb (inv_id r) id
                          then set_invoice (customerId data) cents
                                 (status data) r
                          else r)
                (invoices w))
           (sent stmt w))))
  \/
  updateInvoice id prevState formData w =
  (Normal {| errors := None;
             message := Some "Database Error: Failed to Update Invoice." |},
   sent stmt w).
Proof.
  intros Hp stmt.
  destruct (refuses w stmt) eqn:Href.
  - right. unfold form_parse in Hp.
    unfold updateInvoice, UpdateInvoice_safeParse. rewrite Hp.
    unfold bind, try_catch, sql_update_invoice, sql, bind_amount.
    fold stmt. rewrite Href. reflexivity.
  - destruct (int_of_number (amount data * 100)%float) as [cents|] eqn:Hint.
    + left. exists cents. split; [reflexivity|].
      now apply updateInvoice_accepted.
    + right. unfold form_parse in Hp.
      unfold updateInvoice, UpdateInvoice_safeParse. rewrite Hp.
      unfold bind, try_catch, sql_update_invoice, sql, bind_amount.
      fold stmt. rewrite Href, Hint. reflexivity.
Qed.

(** X21.  After an [updateInvoice] that went through (it threw the
    redirect) for an id that a row has, [fetchInvoiceById] under that id
    returns the customer and the status of the form, and as amount the
    stored cents divided by 100. *)
Theorem updateInvoice_then_fetchInvoiceById
    (id : string) (prevState : State) (formData : FormData)
    (data : InvoiceFields) (w w' : World) (r : InvoiceRow) :
  form_parse formData = SafeParseSuccess data ->
  updateInvoice id prevState formData w =
  (Throw (NEXT_REDIRECT "/dashboard/invoices"), w') ->
  In r (invoices w) -> inv_id r = id ->
  refuses w (SELECT_invoice id) = false ->
  exists cents,
    int_of_number (amount data * 100)%float = Some cents /\
    fst (fetchInvoiceById id w') =
    Normal (Some {| form_id := id;
                    form_customer_id := customerId data;
                    form_amount := (number_of_int cents / 100)%float;
                    form_status := status data |}).
Proof.
  intros Hp Hrun Hin Hid Hsel.
  destruct (updateInvoice_runs id prevState formData data w Hp)
    as [(cents & Hint & Hok) | Hfail].
  - rewrite Hok in Hrun. injection Hrun as Hw'. subst w'.
    exists cents. split; [exact Hint|].
    rewrite fetchInvoiceById_result.
    cbn [refuses invoices with_revalidated with_invoices with_statements sent].
    rewrite Hsel. f_equal.
    clear Hok Hsel. induction (invoices w) as [|x l IH]; [destruct Hin|].
    cbn [map]. destruct (String.eqb (inv_id x) id) eqn:Hx.
    + cbn [filter set_invoice inv_id]. rewrite Hx.
      apply String.eqb_eq in Hx.
      cbn [hd_error option_map]. unfold invoice_form, set_invoice.
      cbn [inv_id inv_customer_id inv_amount inv_status].
      now rewrite Hx.
    + cbn [filter]. rewrite Hx. apply IH.
      destruct Hin as [-> | Hin]; [|assumption].
      apply String.eqb_neq in Hx. congruence.
  - rewrite Hfail in Hrun. discriminate.
Qed.

End UpdateThenFetch.

Lemma fetchCardData_result `{Utils} (w : World) :
  refuses w SELECT_count_invoices = false ->
  refuses w SELECT_count_customers = false ->
  refuses w SELECT_status_sums = false ->
  fst (fetchCardData w) =
  Normal {| numberOfCustomers := Z.of_nat (List.length (customers w));
            numberOfInvoices := Z.of_nat (List.length (invoices w));
            totalPaidInvoices :=
              formatCurrency (total_of_status "paid" (invoices w));
            totalPendingInvoices :=
              formatCurrency (total_of_status "pending" (invoices w)) |}.
Proof.
  intros H1 H2 H3.
  unfold fetchCardData, try_catch, bind, Promise_all3,
    sql_count_invoices, sql_count_customers, sql_status_sums, sql.
  rewrite H1. cbn [refuses with_statements].
  rewrite H2. cbn [refuses with_statements].
  rewrite H3. cbn [invoices customers with_statements].
  cbn [nth_error property ret count paid pending].
  now rewrite !SUM_amount_when.
Qed.

Lemma total_of_status_app (s : string) (l1 l2 : list InvoiceRow) :
  total_of_status s (l1 ++ l2) =
  (total_of_status s l1 + total_of_status s l2)%Z.
Proof.
  unfold total_of_status. rewrite filter_app, map_app.
  induction (map inv_amount (filter _ l1)) as [|x l IH]; simpl; lia.
Qed.

Section CreateThenCards.
Context `{Platform} `{Utils}.

(** X22.  After a [createInvoice] that went through, the dashboard shows
    the new invoice: [fetchCardData] counts one invoice more, the total of
    the form's status (pending or paid) has grown by the stored cents, the
    other total and the number of customers are as before. *)
Theorem createInvoice_then_fetchCardData
    (prevState : State) (formData : FormData) (data : InvoiceFields)
    (w w' : World) :
  form_parse formData = SafeParseSuccess data ->
  createInvoice prevState formData w =
  (Throw (NEXT_REDIRECT "/dashboard/invoices"), w') ->
  refuses w SELECT_count_invoices = false ->
  refuses w SELECT_count_customers = false ->
  refuses w SELECT_status_sums = false ->
  exists cents,
    int_of_number (amount data * 100)%float = Some cents /\
    let added (s : string) :=
      if String.eqb (status data) s then cents else 0%Z in
    fst (fetchCardData w') =
    Normal {| numberOfCustomers := Z.of_nat (List.length (customers w));
              numberOfInvoices := Z.of_nat (List.length (invoices w)) + 1;
              totalPaidInvoices :=
                formatCurrency
                  (total_of_status "paid" (invoices w) + added "paid");
              totalPendingInvoices :=
                formatCurrency
                  (total_of_status "pending" (invoices w) + added "pending") |}.
Proof.
  intros Hp Hrun H1 H2 H3.
  destruct (createInvoice_runs prevState formData data w Hp)
    as [(cents & Hint & Hok) | Hfail].
  - rewrite Hok in Hrun. injection Hrun as Hw'. subst w'.
    exists cents. split; [exact Hint|]. cbv zeta.
    rewrite fetchCardData_result by assumption.
    cbn [invoices customers with_revalidated with_uuid_count with_invoices
           with_statements sent].
    rewrite length_app, !total_of_status_app. cbn [List.length].
    unfold total_of_status at 2 4. cbn [filter inv_status].
    f_equal. f_equal.
    + lia.
    + destruct (String.eqb (status data) "paid"); simpl; f_equal; lia.
    + destruct (String.eqb (status data) "pending"); simpl; f_equal; lia.
  - rewrite Hfail in Hrun. discriminate.
Qed.

End CreateThenCards.

(** X20 at work: the demo user, and an address nobody has. *)
Lemma getUser_witness :
  user_email {| user_id := "u-1"; user_email := "user@nextmail.com";
                user_password := "hashed:123456" |} = "user@nextmail.com" /\
  forall user, In user demo_users -> user_email user <> "nobody@nextmail.com".
Proof.
  destruct (getUser_finds_by_email "user@nextmail.com" demo_world)
    as (Hfound & _).
  destruct (getUser_finds_by_email "nobody@nextmail.com" demo_world)
    as (_ & Hnone & _).
  split.
  - apply (Hfound _ eq_refl).
  - apply (Hnone eq_refl).
Defined.

(** X21 at work: invoice [i-3] after it was set to 7 dollars, paid. *)
Lemma updateInvoice_then_fetch_witness :
  fst (fetchInvoiceById "i-3"
         (snd (@updateInvoice demo_platform "i-3" no_state
                 (demo_form "c-2" "7" "paid") demo_world)))
  = Normal (Some {| form_id := "i-3";
                    form_customer_id := "c-2";
                    form_amount := (number_of_int 700 / 100)%float;
                    form_status := "paid" |}).
Proof.
  destruct (@updateInvoice_then_fetchInvoiceById demo_platform "i-3" no_state
              (demo_form "c-2" "7" "paid")
              {| customerId := "c-2"; amount := parse_decimal "7";
                 status := "paid" |}
              demo_world
              (snd (@updateInvoice demo_platform "i-3" no_state
                      (demo_form "c-2" "7" "paid") demo_world))
              (demo_invoice "i-3" "c-1" 3040 "paid" "2022-10-29"))
    as (cents & Hcents & Hfetch).
  - vm_compute. reflexivity.
  - vm_compute. reflexivity.
  - simpl. auto.
  - reflexivity.
  - reflexivity.
  - vm_compute in Hcents. injection Hcents as <-. exact Hfetch.
Defined.

(** X22 at work: a pending invoice of 10.50 on the dashboard. *)
Lemma createInvoice_then_cards_witness :
  fst (@fetchCardData demo_utils
         (snd (@createInvoice demo_platform no_state
                 (demo_form "c-1" "10.50" "pending") demo_world)))
  = Normal {| numberOfCustomers := 2;
              numberOfInvoices := 9;
              totalPaidInvoices := "$803.85";
              totalPendingInvoices := "$1266.82" |}.
Proof.
  destruct (@createInvoice_then_fetchCardData demo_platform demo_utils no_state
              (demo_form "c-1" "10.50" "pending")
              {| customerId := "c-1"; amount := parse_decimal "10.50";
                 status := "pending" |}
              demo_world
              (snd (@createInvoice demo_platform no_state
                      (demo_form "c-1" "10.50" "pending") demo_world)))
    as (cents & Hcents & Hcards).
  - vm_compute. reflexivity.
  - vm_compute. reflexivity.
  - reflexivity.
  - reflexivity.
  - reflexivity.
  - vm_compute in Hcents. injection Hcents as <-.
    cbv zeta in Hcards. rewrite Hcards. vm_compute. reflexivity.
Defined.
